(** * Taskscore: scoring, deadline alerts and owner-scoped task storage

    A shallow embedding of the task subsystem of the legal-office backend:

    - [app/models/schemas.py]: the [TaskType], [TaskPriority] and
      [TaskStatus] enumerations, [TaskCreate] and [TaskUpdate];
    - [app/models/db_models.py]: the [Task] table;
    - [app/services/base_sql_service.py]: [get], [create], [update],
      [delete] of [BaseSQLService];
    - [app/services/task_service.py]: [_calculate_score],
      [_get_alert_level], [create], [complete_task] of [TaskService];
    - [app/api/endpoints/tasks.py]: [get_my_taskscore], and
      [get_current_user] of [app/api/dependencies.py];
    - the queries of the two services: [list], [count], [exists],
      [list_by_status], [list_by_case], [list_overdue],
      [get_productivity_stats];
    - [app/core/validators.py] and the client validators of [schemas.py]:
      CPF, CNPJ and telephone validation and formatting.

    Python floats are IEEE binary64 numbers and are embedded as Rocq's
    primitive floats; integers are [Z]; the dictionaries of the service and
    the task table are finite maps. *)

From Stdlib Require Import ZArith Floats.
From stdpp Require Import gmap strings list fin_maps sorting.

Set Warnings "-inexact-float".
Local Open Scope Z_scope.

(** ** Exceptions

    A Python call either returns a value or raises.  [Raise] stands for any
    exception; the embedded code never inspects which one it was. *)

Inductive result (A : Type) : Type :=
  | Ok (a : A)
  | Raise.
Arguments Ok {A} a.
Arguments Raise {A}.

#[global] Instance result_ret : MRet result := fun A a => Ok a.
#[global] Instance result_bind : MBind result := fun A B k r =>
  match r with
  | Ok a => k a
  | Raise => Raise
  end.

(** ** Python numbers *)

Module Py.

(** [float(n)] for an integer operand of a mixed [int * float] product:
    the binary64 number nearest to [n]. *)
Definition float_of_int (n : Z) : float :=
  SF2Prim (binary_normalize prec emax n 0 false).

(** [int(x)]: truncation toward zero; raises on infinities and NaN. *)
Definition int (x : float) : result Z :=
  match Prim2SF x with
  | S754_zero _ => Ok 0
  | S754_finite s m e =>
      let a := if 0 <=? e then Z.pos m * 2 ^ e else Z.pos m / 2 ^ (- e) in
      Ok (if s then - a else a)
  | S754_infinity _ => Raise
  | S754_nan => Raise
  end.

(** [round(x)] with one argument: the nearest integer, a tie going to the
    even neighbour; raises on infinities and NaN. *)
Definition round (x : float) : result Z :=
  match Prim2SF x with
  | S754_zero _ => Ok 0
  | S754_finite s m e =>
      let a :=
        if 0 <=? e then Z.pos m * 2 ^ e
        else
          let d := 2 ^ (- e) in
          let q := Z.pos m / d in
          let r := Z.pos m mod d in
          if 2 * r <? d then q
          else if d <? 2 * r then q + 1
          else if Z.even q then q else q + 1 in
      Ok (if s then - a else a)
  | S754_infinity _ => Raise
  | S754_nan => Raise
  end.

(** Rounding to the nearest integer with a tie going away from zero, the
    other convention the specification allows for. *)
Definition round_half_up (x : float) : result Z :=
  match Prim2SF x with
  | S754_zero _ => Ok 0
  | S754_finite s m e =>
      let a :=
        if 0 <=? e then Z.pos m * 2 ^ e
        else
          let d := 2 ^ (- e) in
          let q := Z.pos m / d in
          let r := Z.pos m mod d in
          if 2 * r <? d then q else q + 1 in
      Ok (if s then - a else a)
  | S754_infinity _ => Raise
  | S754_nan => Raise
  end.

(** [d.get(key, default)] on a dictionary with string keys. *)
Definition dict_get {V : Type} (d : gmap string V) (key : string) (dflt : V) : V :=
  default dflt (d !! key).

End Py.

(** ** Enumerations of [schemas.py]

    The three enumerations derive from [str]: a member hashes and compares
    as its value, so a dictionary keyed by members is addressed by the
    value strings. *)

Inductive TaskType : Type :=
  | AUDIENCIA | PETICAO | PRAZO_FATAL | PRAZO_COMUM | REUNIAO
  | DILIGENCIA | ANALISE | CONTATO_CLIENTE | ADMINISTRATIVO | OUTRO.

Inductive TaskPriority : Type :=
  | BAIXA | MEDIA | ALTA | URGENTE.

Inductive TaskStatus : Type :=
  | PENDENTE | EM_ANDAMENTO | CONCLUIDA | CANCELADA.

Definition TaskType_value (t : TaskType) : string :=
  match t with
  | AUDIENCIA => "audiencia"
  | PETICAO => "peticao"
  | PRAZO_FATAL => "prazo_fatal"
  | PRAZO_COMUM => "prazo_comum"
  | REUNIAO => "reuniao"
  | DILIGENCIA => "diligencia"
  | ANALISE => "analise"
  | CONTATO_CLIENTE => "contato_cliente"
  | ADMINISTRATIVO => "administrativo"
  | OUTRO => "outro"
  end.

Definition TaskPriority_value (p : TaskPriority) : string :=
  match p with
  | BAIXA => "baixa"
  | MEDIA => "media"
  | ALTA => "alta"
  | URGENTE => "urgente"
  end.

Definition TaskStatus_value (s : TaskStatus) : string :=
  match s with
  | PENDENTE => "pendente"
  | EM_ANDAMENTO => "em_andamento"
  | CONCLUIDA => "concluida"
  | CANCELADA => "cancelada"
  end.

Definition all_task_types : list TaskType :=
  [AUDIENCIA; PETICAO; PRAZO_FATAL; PRAZO_COMUM; REUNIAO;
   DILIGENCIA; ANALISE; CONTATO_CLIENTE; ADMINISTRATIVO; OUTRO].

Definition all_priorities : list TaskPriority :=
  [BAIXA; MEDIA; ALTA; URGENTE].

#[global] Instance TaskType_eq_dec : EqDecision TaskType.
Proof. solve_decision. Defined.
#[global] Instance TaskPriority_eq_dec : EqDecision TaskPriority.
Proof. solve_decision. Defined.
#[global] Instance TaskStatus_eq_dec : EqDecision TaskStatus.
Proof. solve_decision. Defined.

(** ** Score calculator ([task_service.py], lines 43-68) *)

Module Score.

Definition TASK_SCORES_items : list (string * Z) :=
  [ (TaskType_value AUDIENCIA, 100);
    (TaskType_value PETICAO, 80);
    (TaskType_value PRAZO_FATAL, 90);
    (TaskType_value PRAZO_COMUM, 50);
    (TaskType_value REUNIAO, 40);
    (TaskType_value DILIGENCIA, 60);
    (TaskType_value ANALISE, 70);
    (TaskType_value CONTATO_CLIENTE, 30);
    (TaskType_value ADMINISTRATIVO, 20);
    (TaskType_value OUTRO, 25) ].

Definition PRIORITY_MULTIPLIERS_items : list (string * float) :=
  [ (TaskPriority_value BAIXA, 0.8%float);
    (TaskPriority_value MEDIA, 1.0%float);
    (TaskPriority_value ALTA, 1.3%float);
    (TaskPriority_value URGENTE, 1.5%float) ].

Definition TASK_SCORES : gmap string Z := list_to_map TASK_SCORES_items.

Definition PRIORITY_MULTIPLIERS : gmap string float :=
  list_to_map PRIORITY_MULTIPLIERS_items.

(** The values of the ten categories and of the four priorities. *)
Definition known_task_types : list string := TaskType_value <$> all_task_types.
Definition known_priorities : list string := TaskPriority_value <$> all_priorities.

(** The product [base_score * multiplier] of an [int] and a [float]. *)
Definition score_product (task_type priority : string) : float :=
  let base_score := Py.dict_get TASK_SCORES task_type 25 in
  let multiplier := Py.dict_get PRIORITY_MULTIPLIERS priority 1.0%float in
  (Py.float_of_int base_score * multiplier)%float.

Definition _calculate_score (task_type priority : string) : result Z :=
  Py.int (score_product task_type priority).

(** The specification's tables, read as exact numbers: base points, and
    the multipliers as fractions [num / den]. *)
Definition base_points (t : TaskType) : Z :=
  match t with
  | AUDIENCIA => 100 | PRAZO_FATAL => 90 | PETICAO => 80 | ANALISE => 70
  | DILIGENCIA => 60 | PRAZO_COMUM => 50 | REUNIAO => 40
  | CONTATO_CLIENTE => 30 | OUTRO => 25 | ADMINISTRATIVO => 20
  end.

Definition priority_multiplier (p : TaskPriority) : Z * Z :=
  match p with
  | BAIXA => (8, 10) | MEDIA => (10, 10) | ALTA => (13, 10) | URGENTE => (15, 10)
  end.

(** [round(base_points * priority_multiplier)] on exact numbers, ties to
    even and ties away from zero. *)
Definition exact_round_half_even (t : TaskType) (p : TaskPriority) : Z :=
  let '(n, d) := priority_multiplier p in
  let q := (base_points t * n) / d in
  let r := (base_points t * n) mod d in
  if 2 * r <? d then q
  else if d <? 2 * r then q + 1
  else if Z.even q then q else q + 1.

Definition exact_round_half_up (t : TaskType) (p : TaskPriority) : Z :=
  let '(n, d) := priority_multiplier p in
  let q := (base_points t * n) / d in
  let r := (base_points t * n) mod d in
  if 2 * r <? d then q else q + 1.

(** The exact product cut down to its integer part. *)
Definition exact_floor (t : TaskType) (p : TaskPriority) : Z :=
  let '(n, d) := priority_multiplier p in (base_points t * n) / d.

End Score.

(** ** Dates and times

    A [datetime] is its wall-clock reading, counted in microseconds from
    the epoch, together with its [tzinfo]: [None] for a naive value,
    [Some off] for an aware value whose UTC offset is [off] microseconds.
    [timezone.utc] is offset 0. *)

Record datetime : Type := mkDatetime {
  wall : Z;
  tzinfo : option Z
}.

Record timedelta : Type := mkTimedelta {
  days : Z;
  seconds : Z;
  microseconds : Z
}.

#[global] Instance datetime_eq_dec : EqDecision datetime.
Proof. solve_decision. Defined.

Module Datetime.

Definition utc : Z := 0.

Definition us_per_second : Z := 1000000.
Definition us_per_day : Z := 86400 * us_per_second.

(** [d.replace(tzinfo=tz)]: the wall-clock fields are kept. *)
Definition replace_tzinfo (d : datetime) (tz : Z) : datetime :=
  {| wall := wall d; tzinfo := Some tz |}.

(** [datetime.now(timezone.utc)] at the instant [now] (microseconds of
    UTC since the epoch). *)
Definition now_utc (now : Z) : datetime :=
  {| wall := now; tzinfo := Some utc |}.

(** [datetime.utcnow()]: the same reading, but naive. *)
Definition utcnow (now : Z) : datetime :=
  {| wall := now; tzinfo := None |}.

(** The normalising constructor of [timedelta]: [0 <= seconds < 86400]
    and [0 <= microseconds < 1000000], the sign carried by [days]. *)
Definition timedelta_of_us (us : Z) : timedelta :=
  {| days := us / us_per_day;
     seconds := (us mod us_per_day) / us_per_second;
     microseconds := us mod us_per_second |}.

(** [a - b]: two naive values are subtracted field by field, two aware
    values as instants; mixing a naive with an aware value raises
    [TypeError]. *)
Definition sub (a b : datetime) : result timedelta :=
  match tzinfo a, tzinfo b with
  | None, None => Ok (timedelta_of_us (wall a - wall b))
  | Some oa, Some ob => Ok (timedelta_of_us ((wall a - oa) - (wall b - ob)))
  | _, _ => Raise
  end.

(** The instant a value denotes, in microseconds of UTC, a naive value
    being read as UTC. *)
Definition instant_utc (d : datetime) : Z := wall d - default 0 (tzinfo d).

End Datetime.

(** ** Alert classifier ([task_service.py], lines 70-101) *)

Module Alert.

Definition _get_alert_level (now : Z) (due_date : datetime) : result string :=
  let now := Datetime.now_utc now in
  let due_date :=
    match tzinfo due_date with
    | None => Datetime.replace_tzinfo due_date Datetime.utc
    | Some _ => due_date
    end in
  delta ← Datetime.sub due_date now;
  let diff := days delta in
  if diff <? 0 then Ok "overdue"
  else if diff =? 0 then Ok "fatal"
  else if diff =? 1 then Ok "critical"
  else if diff <=? 3 then Ok "warning"
  else if diff <=? 7 then Ok "attention"
  else Ok "normal".

(** The whole days from [now] to the due date, rounded down. *)
Definition diff_days (now : Z) (due_date : datetime) : Z :=
  (Datetime.instant_utc due_date - now) / Datetime.us_per_day.

(** The table of the specification, on a number of whole days. *)
Definition level_of_diff_days (diff_days : Z) : string :=
  if decide (diff_days < 0) then "overdue"
  else if decide (diff_days = 0) then "fatal"
  else if decide (diff_days = 1) then "critical"
  else if decide (2 <= diff_days <= 3) then "warning"
  else if decide (4 <= diff_days <= 7) then "attention"
  else "normal".

End Alert.

(** ** Request schemas ([schemas.py])

    Pydantic remembers which fields a request set.  A field with a default
    is an [option]: [None] when the request left it out, [Some v] when the
    request gave [v].  For an [Optional] field [v] is itself an [option],
    [Some None] being an explicit [null]. *)

Module TaskCreate.

Record t : Type := mk {
  title : string;
  description : option (option string);
  task_type : TaskType;
  priority : option TaskPriority;
  status : option TaskStatus;
  due_date : option (option datetime);
  case_id : option (option string);
  client_id : option (option string);
  assigned_to : option (option string);
  notes : option (option string);
  tags : option (list string);
  location : option (option string);
  process_number : option (option string)
}.

(** Attribute reads, which see the field's default when it is unset. *)
Definition get_priority (data : t) : TaskPriority := default MEDIA (priority data).
Definition get_due_date (data : t) : option datetime := default None (due_date data).

End TaskCreate.

Module TaskUpdate.

Record t : Type := mk {
  title : option (option string);
  description : option (option string);
  task_type : option (option TaskType);
  priority : option (option TaskPriority);
  status : option (option TaskStatus);
  due_date : option (option datetime);
  case_id : option (option string);
  client_id : option (option string);
  assigned_to : option (option string);
  notes : option (option string);
  tags : option (option (list string));
  location : option (option string);
  process_number : option (option string)
}.

(** [TaskUpdate()] with no field set. *)
Definition empty : t :=
  mk None None None None None None None None None None None None None.

End TaskUpdate.

(** ** The [tasks] table ([db_models.py], lines 344-376)

    A row is stored under its primary key [id]; the table is a finite map
    from keys to rows.  There is no column for [assigned_to], [location] or
    [process_number].  The columns [case_id] and [client_id] are
    [String(36)] (lines 362-363), a width no schema enforces on a request;
    the other [String] columns hold a title the schemas bound by 200
    characters, a generated key, a user's id or an alert level. *)

Module DBTask.

Record t : Type := mk {
  user_id : string;
  created_at : datetime;
  updated_at : datetime;
  title : string;
  description : option string;
  task_type : TaskType;
  priority : TaskPriority;
  status : TaskStatus;
  case_id : option string;
  client_id : option string;
  due_date : option datetime;
  completed_at : option datetime;
  score : Z;
  completed_by : option string;
  alert_level : string;
  tags : option (list string);
  notes : option string
}.

(** [setattr(row, field, value)], one function per column written by the
    services. *)
Definition set_updated_at (v : datetime) (r : t) : t :=
  let 'mk a b _ d e f g h i j k l m n o p q := r in mk a b v d e f g h i j k l m n o p q.
Definition set_title (v : string) (r : t) : t :=
  let 'mk a b c _ e f g h i j k l m n o p q := r in mk a b c v e f g h i j k l m n o p q.
Definition set_description (v : option string) (r : t) : t :=
  let 'mk a b c d _ f g h i j k l m n o p q := r in mk a b c d v f g h i j k l m n o p q.
Definition set_task_type (v : TaskType) (r : t) : t :=
  let 'mk a b c d e _ g h i j k l m n o p q := r in mk a b c d e v g h i j k l m n o p q.
Definition set_priority (v : TaskPriority) (r : t) : t :=
  let 'mk a b c d e f _ h i j k l m n o p q := r in mk a b c d e f v h i j k l m n o p q.
Definition set_status (v : TaskStatus) (r : t) : t :=
  let 'mk a b c d e f g _ i j k l m n o p q := r in mk a b c d e f g v i j k l m n o p q.
Definition set_case_id (v : option string) (r : t) : t :=
  let 'mk a b c d e f g h _ j k l m n o p q := r in mk a b c d e f g h v j k l m n o p q.
Definition set_client_id (v : option string) (r : t) : t :=
  let 'mk a b c d e f g h i _ k l m n o p q := r in mk a b c d e f g h i v k l m n o p q.
Definition set_due_date (v : option datetime) (r : t) : t :=
  let 'mk a b c d e f g h i j _ l m n o p q := r in mk a b c d e f g h i j v l m n o p q.
Definition set_completed_at (v : option datetime) (r : t) : t :=
  let 'mk a b c d e f g h i j k _ m n o p q := r in mk a b c d e f g h i j k v m n o p q.
Definition set_completed_by (v : option string) (r : t) : t :=
  let 'mk a b c d e f g h i j k l m _ o p q := r in mk a b c d e f g h i j k l m v o p q.
Definition set_tags (v : option (list string)) (r : t) : t :=
  let 'mk a b c d e f g h i j k l m n o _ q := r in mk a b c d e f g h i j k l m n o v q.
Definition set_notes (v : option string) (r : t) : t :=
  let 'mk a b c d e f g h i j k l m n o p _ := r in mk a b c d e f g h i j k l m n o p v.

(** A value a [String(n)] column accepts: PostgreSQL refuses a string of
    more than [n] characters, and with it the commit. *)
Definition fits (n : nat) (v : option string) : Prop :=
  match v with
  | Some s => (String.length s <= n)%nat
  | None => True
  end.

#[global] Instance fits_dec (n : nat) (v : option string) : Decision (fits n v).
Proof. destruct v; simpl; apply _. Defined.

End DBTask.

#[global] Instance DBTask_eq_dec : EqDecision DBTask.t.
Proof. solve_decision. Defined.

(** The table. *)
Abbreviation store := (gmap string DBTask.t).

(** ** Generic CRUD service ([base_sql_service.py]), at the [tasks] table

    Every operation takes the table and returns its result together with
    the table it leaves behind.  An operation that raises rolls back, so it
    leaves the table as it found it. *)

Module BaseSQLService.

(** Lines 112-121: the row with this key, if the caller owns it. *)
Definition get (db : store) (id user_id : string) : option DBTask.t :=
  db_obj ← db !! id;
  if decide (DBTask.user_id db_obj = user_id) then Some db_obj else None.

(** Lines 68-88.  [extra_fields] are [score] and [alert_level], as
    [TaskService.create] passes them.  The model's constructor rejects a
    keyword that is no column; the commit fails on a [case_id] or
    [client_id] wider than its column and on a key already in use.  The
    key [new_id] is what [generate_uuid] returns, and [now] the server's
    clock for [created_at] and [updated_at]. *)
Definition create (db : store) (data : TaskCreate.t) (user_id : string)
    (score : Z) (alert_level : string) (now : Z) (new_id : string)
    : result DBTask.t * store :=
  if decide (is_Some (TaskCreate.assigned_to data)
             ∨ is_Some (TaskCreate.location data)
             ∨ is_Some (TaskCreate.process_number data))
  then (Raise, db)
  else if decide (¬ (DBTask.fits 36 (default None (TaskCreate.case_id data))
                     ∧ DBTask.fits 36 (default None (TaskCreate.client_id data))))
  then (Raise, db)
  else
    match db !! new_id with
    | Some _ => (Raise, db)
    | None =>
        let db_obj :=
          {| DBTask.user_id := user_id;
             DBTask.created_at := Datetime.now_utc now;
             DBTask.updated_at := Datetime.now_utc now;
             DBTask.title := TaskCreate.title data;
             DBTask.description := default None (TaskCreate.description data);
             DBTask.task_type := TaskCreate.task_type data;
             DBTask.priority := default MEDIA (TaskCreate.priority data);
             DBTask.status := default PENDENTE (TaskCreate.status data);
             DBTask.case_id := default None (TaskCreate.case_id data);
             DBTask.client_id := default None (TaskCreate.client_id data);
             DBTask.due_date := default None (TaskCreate.due_date data);
             DBTask.completed_at := None;
             DBTask.score := score;
             DBTask.completed_by := None;
             DBTask.alert_level := alert_level;
             DBTask.tags := Some (default [] (TaskCreate.tags data));
             DBTask.notes := default None (TaskCreate.notes data) |} in
        (Ok db_obj, <[new_id := db_obj]> db)
    end.

(** One turn of the loop of lines 279-281 for a nullable column. *)
Definition set_nullable {V : Type} (setter : option V -> DBTask.t -> DBTask.t)
    (field : option (option V)) (db_obj : result DBTask.t) : result DBTask.t :=
  match field with
  | None => db_obj
  | Some v => obj ← db_obj; Ok (setter v obj)
  end.

(** The same for a [nullable=False] column: a [null] makes the commit
    fail. *)
Definition set_required {V : Type} (setter : V -> DBTask.t -> DBTask.t)
    (field : option (option V)) (db_obj : result DBTask.t) : result DBTask.t :=
  match field with
  | None => db_obj
  | Some None => Raise
  | Some (Some v) => obj ← db_obj; Ok (setter v obj)
  end.

(** The same for a nullable [String(n)] column: a value wider than the
    column makes the commit fail. *)
Definition set_varchar (n : nat) (setter : option string -> DBTask.t -> DBTask.t)
    (field : option (option string)) (db_obj : result DBTask.t) : result DBTask.t :=
  match field with
  | None => db_obj
  | Some v =>
      if decide (DBTask.fits n v) then obj ← db_obj; Ok (setter v obj) else Raise
  end.

(** Lines 276-289: the fields the request set, in the order of the
    schema; [assigned_to], [location] and [process_number] fail the
    [hasattr] test and are skipped. *)
Definition apply_update (data : TaskUpdate.t) (now : Z) (db_obj : DBTask.t)
    : result DBTask.t :=
  let o := Ok db_obj in
  let o := set_required DBTask.set_title (TaskUpdate.title data) o in
  let o := set_nullable DBTask.set_description (TaskUpdate.description data) o in
  let o := set_required DBTask.set_task_type (TaskUpdate.task_type data) o in
  let o := set_required DBTask.set_priority (TaskUpdate.priority data) o in
  let o := set_required DBTask.set_status (TaskUpdate.status data) o in
  let o := set_nullable DBTask.set_due_date (TaskUpdate.due_date data) o in
  let o := set_varchar 36 DBTask.set_case_id (TaskUpdate.case_id data) o in
  let o := set_varchar 36 DBTask.set_client_id (TaskUpdate.client_id data) o in
  let o := set_nullable DBTask.set_notes (TaskUpdate.notes data) o in
  let o := set_nullable DBTask.set_tags (TaskUpdate.tags data) o in
  obj ← o; Ok (DBTask.set_updated_at (Datetime.utcnow now) obj).

(** Lines 269-296. *)
Definition update (db : store) (id : string) (data : TaskUpdate.t)
    (user_id : string) (now : Z) : result (option DBTask.t) * store :=
  match get db id user_id with
  | None => (Ok None, db)
  | Some db_obj =>
      match apply_update data now db_obj with
      | Ok obj => (Ok (Some obj), <[id := obj]> db)
      | Raise => (Raise, db)
      end
  end.

(** Lines 315-331. *)
Definition delete (db : store) (id user_id : string) : result bool * store :=
  match get db id user_id with
  | None => (Ok false, db)
  | Some _ => (Ok true, base.delete id db)
  end.

End BaseSQLService.

(** ** Task service ([task_service.py]) *)

Module TaskService.

(** Lines 121-137. *)
Definition create (db : store) (data : TaskCreate.t) (user_id : string)
    (now : Z) (new_id : string) : result DBTask.t * store :=
  let prepared :=
    score ← Score._calculate_score
              (TaskType_value (TaskCreate.task_type data))
              (TaskPriority_value (TaskCreate.get_priority data));
    alert_level ←
      match TaskCreate.get_due_date data with
      | Some due_date => Alert._get_alert_level now due_date
      | None => Ok "normal"
      end;
    Ok (score, alert_level) in
  match prepared with
  | Ok (score, alert_level) =>
      BaseSQLService.create db data user_id score alert_level now new_id
  | Raise => (Raise, db)
  end.

(** Line 165: [completed_by or user_id]; [None] and the empty string are
    both falsy. *)
Definition completer (completed_by : option string) (user_id : string) : string :=
  match completed_by with
  | Some c => if decide (c = "") then user_id else c
  | None => user_id
  end.

(** Lines 158-176.  The commit writes the row back, and the column's
    [onupdate] default refreshes [updated_at]. *)
Definition complete_task (db : store) (task_id user_id : string)
    (completed_by : option string) (now : Z) : option DBTask.t * store :=
  match BaseSQLService.get db task_id user_id with
  | None => (None, db)
  | Some task =>
      let task := DBTask.set_status CONCLUIDA task in
      let task := DBTask.set_completed_at (Some (Datetime.now_utc now)) task in
      let task := DBTask.set_completed_by (Some (completer completed_by user_id)) task in
      let task := DBTask.set_updated_at (Datetime.now_utc now) task in
      (Some task, <[task_id := task]> db)
  end.

End TaskService.

(** ** Histories of the table *)

Inductive op : Type :=
  | OpCreate (data : TaskCreate.t) (user_id : string) (now : Z) (new_id : string)
  | OpUpdate (id : string) (data : TaskUpdate.t) (user_id : string) (now : Z)
  | OpDelete (id user_id : string)
  | OpComplete (task_id user_id : string) (completed_by : option string) (now : Z).

Definition step (db : store) (o : op) : store :=
  match o with
  | OpCreate data user_id now new_id => (TaskService.create db data user_id now new_id).2
  | OpUpdate id data user_id now => (BaseSQLService.update db id data user_id now).2
  | OpDelete id user_id => (BaseSQLService.delete db id user_id).2
  | OpComplete task_id user_id completed_by now =>
      (TaskService.complete_task db task_id user_id completed_by now).2
  end.

Definition run (ops : list op) : store := foldl step ∅ ops.

(** The tables a history can leave behind when every step is one that
    [allowed] admits in the table it is applied to. *)
Inductive reachable_when (allowed : store -> op -> Prop) : store -> Prop :=
  | reachable_empty : reachable_when allowed ∅
  | reachable_step db o :
      reachable_when allowed db -> allowed db o -> reachable_when allowed (step db o).

Definition reachable : store -> Prop := reachable_when (fun _ _ => True).

(** ** Predicates on tables and histories *)

Module Inv.

(** The rows of one user. *)
Definition owned (user_id : string) (db : store) : store :=
  filter (fun kv => DBTask.user_id kv.2 = user_id) db.

(** A row without a due date has alert level [normal]. *)
Definition due_alert_ok (r : DBTask.t) : Prop :=
  DBTask.due_date r = None -> DBTask.alert_level r = "normal".

Definition alert_invariant (db : store) : Prop :=
  forall id r, db !! id = Some r -> due_alert_ok r.

(** The step is a partial update that sets [due_date] to [null] on a row
    of the caller whose stored alert level is not [normal]. *)
Definition strips_due_date (db : store) (o : op) : bool :=
  match o with
  | OpUpdate id data user_id _ =>
      bool_decide (TaskUpdate.due_date data = Some None)
      && match BaseSQLService.get db id user_id with
         | Some r => bool_decide (DBTask.alert_level r ≠ "normal")
         | None => false
         end
  | _ => false
  end.

Definition is_completion (o : op) : bool :=
  match o with
  | OpComplete _ _ _ _ => true
  | _ => false
  end.

(** Neither completion column is set. *)
Definition not_completed (r : DBTask.t) : Prop :=
  DBTask.completed_at r = None /\ DBTask.completed_by r = None.

(** A request the table can hold: every field it sets is a column, and
    its case and client keys are no wider than their columns. *)
Definition only_columns (data : TaskCreate.t) : Prop :=
  TaskCreate.assigned_to data = None
  /\ TaskCreate.location data = None
  /\ TaskCreate.process_number data = None
  /\ DBTask.fits 36 (default None (TaskCreate.case_id data))
  /\ DBTask.fits 36 (default None (TaskCreate.client_id data)).

(** A setter that leaves column [f] alone. *)
Definition keeps {X : Type} (f : DBTask.t -> X) {V : Type}
    (setter : V -> DBTask.t -> DBTask.t) : Prop :=
  forall v r, f (setter v r) = f r.

(** The setters the update loop can call leave [f] alone. *)
Definition update_keeps {X : Type} (f : DBTask.t -> X) : Prop :=
  keeps f DBTask.set_title /\ keeps f DBTask.set_description
  /\ keeps f DBTask.set_task_type /\ keeps f DBTask.set_priority
  /\ keeps f DBTask.set_status /\ keeps f DBTask.set_due_date
  /\ keeps f DBTask.set_case_id /\ keeps f DBTask.set_client_id
  /\ keeps f DBTask.set_notes /\ keeps f DBTask.set_tags
  /\ keeps f DBTask.set_updated_at.

(** [f] has the value [c] on the row a result holds, if it holds one. *)
Definition has_value {X : Type} (f : DBTask.t -> X) (c : X)
    (o : result DBTask.t) : Prop :=
  forall r', o = Ok r' -> f r' = c.

(** The alert level [TaskService.create] stores. *)
Definition initial_alert (now : Z) (data : TaskCreate.t) : string :=
  match TaskCreate.get_due_date data with
  | Some due_date => Alert.level_of_diff_days (Alert.diff_days now due_date)
  | None => "normal"
  end.

(** What is known of a row just created. *)
Definition created (data : TaskCreate.t) (u : string) (now : Z) (r : DBTask.t) : Prop :=
  DBTask.user_id r = u
  /\ DBTask.score r = Score.exact_floor (TaskCreate.task_type data) (TaskCreate.get_priority data)
  /\ DBTask.alert_level r = initial_alert now data
  /\ DBTask.due_date r = TaskCreate.get_due_date data
  /\ DBTask.completed_at r = None
  /\ DBTask.completed_by r = None.

(** The row [complete_task] writes over [r]. *)
Definition completed_row (r : DBTask.t) (u : string) (cb : option string) (now : Z)
    : DBTask.t :=
  DBTask.set_updated_at (Datetime.now_utc now)
    (DBTask.set_completed_by (Some (TaskService.completer cb u))
       (DBTask.set_completed_at (Some (Datetime.now_utc now))
          (DBTask.set_status CONCLUIDA r))).

End Inv.

(** ** Productivity ranking *)

Module Ranking.

(** An entry of the ranking, a dictionary with these five keys. *)
Record entry : Type := mk {
  user_id : option string;
  total_score : Z;
  tasks_completed : Z;
  tasks_by_type : gmap string Z;
  rank : Z
}.

(** Modelled from the spec: what the aggregator holds for one assignee
    (section 4.3, step 3). *)
Record group : Type := mkGroup {
  g_total : Z;
  g_count : Z;
  g_by_type : gmap string Z
}.

Definition empty_group : group := mkGroup 0 0 ∅.

(** Modelled from the spec: step 1 of section 4.3, the completed tasks of
    the owner whose [completed_at] lies in the optional window. *)
Definition in_window (start_date end_date : option datetime) (task : DBTask.t) : bool :=
  match start_date, end_date, DBTask.completed_at task with
  | None, None, _ => true
  | _, _, None => false
  | s, e, Some c =>
      from_option (fun s => Datetime.instant_utc s <=? Datetime.instant_utc c) true s
      && from_option (fun e => Datetime.instant_utc c <=? Datetime.instant_utc e) true e
  end.

Definition counted (owner : string) (start_date end_date : option datetime)
    (task : DBTask.t) : bool :=
  bool_decide (DBTask.user_id task = owner)
  && bool_decide (DBTask.status task = CONCLUIDA)
  && in_window start_date end_date task.

(** Modelled from the spec: steps 2 and 3, group by [completed_by]; sum
    the scores, count the tasks and tally them per category. *)
Definition add_task (task : DBTask.t) (groups : gmap (option string) group)
    : gmap (option string) group :=
  let key := DBTask.completed_by task in
  let g := default empty_group (groups !! key) in
  let category := TaskType_value (DBTask.task_type task) in
  <[key := {| g_total := g_total g + DBTask.score task;
              g_count := g_count g + 1;
              g_by_type :=
                <[category := default 0 (g_by_type g !! category) + 1]> (g_by_type g) |}]>
    groups.

Definition aggregate (tasks : list DBTask.t) : gmap (option string) group :=
  foldr add_task ∅ tasks.

(** Modelled from the spec: step 4, the order of the sort, larger totals
    first. *)
Definition by_total_desc (a b : option string * group) : Prop :=
  g_total b.2 <= g_total a.2.

#[global] Instance by_total_desc_dec a b : Decision (by_total_desc a b).
Proof. unfold by_total_desc. apply _. Defined.

(** Modelled from the spec: step 5, ranks are the 1-based positions. *)
Fixpoint assign_ranks (position : Z) (groups : list (option string * group))
    : list entry :=
  match groups with
  | [] => []
  | (key, g) :: rest =>
      {| user_id := key;
         total_score := g_total g;
         tasks_completed := g_count g;
         tasks_by_type := g_by_type g;
         rank := position |} :: assign_ranks (position + 1) rest
  end.

(** Modelled from the spec: [TaskService.get_taskscore_ranking], which
    the endpoints of [tasks.py] call and no source file defines.  It
    follows the five steps of the Ranking Aggregator (section 4.3) on the
    rows of the table. *)
Definition get_taskscore_ranking (tasks : list DBTask.t) (user_id : string)
    (start_date end_date : option datetime) : list entry :=
  let completed := filter (fun task => counted user_id start_date end_date task = true) tasks in
  assign_ranks 1 (merge_sort by_total_desc (map_to_list (aggregate completed))).


End Ranking.

(** ** Endpoints ([tasks.py]) and their dependencies ([dependencies.py]) *)

Module Endpoints.

(** What an endpoint answers: the body it returns, or the status code of
    the [HTTPException] it raises. *)
Inductive response (A : Type) : Type :=
  | Body (a : A)
  | HTTPException (status_code : Z).
Arguments Body {A} a.
Arguments HTTPException {A} status_code.

(** The values the dictionary of [get_current_user] holds. *)
Inductive item : Type :=
  | ItemStr (s : string)
  | ItemBool (b : bool)
  | ItemNone.

(** A Python object, as far as reading an attribute tells: an instance
    with its attributes, or a dictionary, whose keys are items and no
    attributes. *)
Inductive object : Type :=
  | PyInstance (attributes : gmap string string)
  | PyDict (items : gmap string item).

(** [o.name] for the names the endpoints read, none of them a method of
    [dict]; an attribute the object does not have raises AttributeError. *)
Definition getattr (o : object) (name : string) : result string :=
  match o with
  | PyInstance attributes =>
      match attributes !! name with
      | Some v => Ok v
      | None => Raise
      end
  | PyDict _ => Raise
  end.

(** [dependencies.py], lines 40-52, for a token that verifies: [uid],
    [email] and [email_verified] are what the decoded token holds.  The
    endpoints receive this dictionary as [current_user]. *)
Definition get_current_user (uid : string) (email : option string)
    (email_verified : bool) : object :=
  PyDict (list_to_map [ ("user_id", ItemStr uid);
                        ("email", from_option ItemStr ItemNone email);
                        ("firebase_uid", ItemStr uid);
                        ("email_verified", ItemBool email_verified) ]).

(** A method that takes what the endpoint passes: [user_id],
    [start_date] and [end_date]. *)
Definition ranking_method : Type :=
  string -> option datetime -> option datetime -> result (list Ranking.entry).

(** [task_service.get_taskscore_ranking]: [TaskService]
    ([task_service.py], lines 29-283) defines no method of that name and
    inherits none from [BaseSQLService], so reading the attribute
    raises AttributeError. *)
Definition task_service_get_taskscore_ranking : result ranking_method := Raise.

(** Lines 274-280: the fallback of the own-score lookup. *)
Definition placeholder (ranking : list Ranking.entry) (current_user_id : string)
    : Ranking.entry :=
  {| Ranking.user_id := Some current_user_id;
     Ranking.total_score := 0;
     Ranking.tasks_completed := 0;
     Ranking.tasks_by_type := ∅;
     Ranking.rank := Z.of_nat (length ranking) + 1 |}.

(** Lines 272-281, given the ranking and the value of [current_user.id]:
    [next] takes the first entry of the generator, or the fallback. *)
Definition my_score (ranking : list Ranking.entry) (current_user_id : string)
    : Ranking.entry :=
  default (placeholder ranking current_user_id)
    (head (filter (fun entry => Ranking.user_id entry = Some current_user_id) ranking)).

(** Lines 265-283, the [try] block, with the attribute
    [task_service.get_taskscore_ranking] as its first argument. *)
Definition try_block (get_taskscore_ranking : result ranking_method)
    (current_user : object) (start_date end_date : option datetime)
    : result Ranking.entry :=
  method ← get_taskscore_ranking;
  user_id ← getattr current_user "id";
  ranking ← method user_id start_date end_date;
  current_user_id ← getattr current_user "id";
  Ok (my_score ranking current_user_id).

(** Lines 252-289: the handler of line 285 answers every exception of
    the block with HTTP 500. *)
Definition get_my_taskscore (current_user : object)
    (start_date end_date : option datetime) : response Ranking.entry :=
  match try_block task_service_get_taskscore_ranking current_user
          start_date end_date with
  | Ok entry => Body entry
  | Raise => HTTPException 500
  end.

End Endpoints.

(** ** Sample requests and tables *)

Module Sample.

(** Noon of day [n], in microseconds. *)
Definition noon (n : Z) : Z := n * Datetime.us_per_day + 12 * 3600 * Datetime.us_per_second.

(** A hearing of priority [urgente], with the given due date field. *)
Definition hearing (due_date : option (option datetime)) : TaskCreate.t :=
  {| TaskCreate.title := "Audiencia de conciliacao";
     TaskCreate.description := None;
     TaskCreate.task_type := AUDIENCIA;
     TaskCreate.priority := Some URGENTE;
     TaskCreate.status := None;
     TaskCreate.due_date := due_date;
     TaskCreate.case_id := None;
     TaskCreate.client_id := None;
     TaskCreate.assigned_to := None;
     TaskCreate.notes := None;
     TaskCreate.tags := None;
     TaskCreate.location := None;
     TaskCreate.process_number := None |}.

(** A naive due date eight hours after noon of day 10. *)
Definition due_same_day : datetime :=
  {| wall := noon 10 + 8 * 3600 * Datetime.us_per_second; tzinfo := None |}.

(** The update [{"due_date": null}]. *)
Definition clear_due_date : TaskUpdate.t :=
  TaskUpdate.mk None None None None None (Some None) None None None None None None None.

(** The update [{"priority": "baixa", "task_type": "administrativo"}]. *)
Definition downgrade : TaskUpdate.t :=
  TaskUpdate.mk None None (Some (Some ADMINISTRATIVO)) (Some (Some BAIXA))
    None None None None None None None None None.

(** Alice files a hearing due today. *)
Definition alice_files : op := OpCreate (hearing (Some (Some due_same_day))) "alice" (noon 10) "t1".

(** Alice files a hearing without a due date. *)
Definition alice_files_undated : op := OpCreate (hearing None) "alice" (noon 10) "t2".

(** Bob files a hearing of his own. *)
Definition bob_files : op := OpCreate (hearing None) "bob" (noon 10) "t3".

(** Alice files a petition of priority [alta], without a due date. *)
Definition petition : TaskCreate.t :=
  {| TaskCreate.title := "Peticao inicial";
     TaskCreate.description := None;
     TaskCreate.task_type := PETICAO;
     TaskCreate.priority := Some ALTA;
     TaskCreate.status := None;
     TaskCreate.due_date := None;
     TaskCreate.case_id := None;
     TaskCreate.client_id := None;
     TaskCreate.assigned_to := None;
     TaskCreate.notes := None;
     TaskCreate.tags := None;
     TaskCreate.location := None;
     TaskCreate.process_number := None |}.

(** Alice's office: Bob completes her hearing, she completes her petition,
    and a second hearing stays open. *)
Definition office : store :=
  run [alice_files;
       OpCreate petition "alice" (noon 10) "t2";
       OpCreate (hearing None) "alice" (noon 10) "t4";
       OpComplete "t1" "alice" (Some "bob") (noon 11);
       OpComplete "t2" "alice" None (noon 12)].

Definition office_tasks : list DBTask.t := (map_to_list office).*2.

(** The ranking Alice asks for, with no window. *)
Definition office_ranking : list Ranking.entry :=
  Ranking.get_taskscore_ranking office_tasks "alice" None None.

Definition db_alice : store := run [alice_files].
Definition db_alice_bob : store := run [alice_files; bob_files].




End Sample.

(** ** Queries over the table ([base_sql_service.py], [task_service.py])

    A query sees the table as its rows [(id, row)], in the order of the
    keys.  How the database orders rows on a column is the database's: it
    is the parameter [column_le] of the generic listing.  Timestamps are
    compared as instants, a naive timestamp being read as UTC, as
    [_get_alert_level] reads it. *)

Module Queries.

(** A value a filter compares a column with.  The string-valued
    enumerations are compared by their values. *)
Inductive value : Type :=
  | VStr (s : string)
  | VInt (n : Z)
  | VTime (d : datetime)
  | VTags (tags : list string).

(** [getattr(model, field)] on the columns of the table, as the function
    reading the column off a row ([None] there is [NULL]); [None] here
    when [hasattr(model, field)] is false. *)
Definition column (field : string) : option (string * DBTask.t -> option value) :=
  if decide (field = "id") then Some (fun row => Some (VStr row.1))
  else if decide (field = "user_id") then
    Some (fun row => Some (VStr (DBTask.user_id row.2)))
  else if decide (field = "created_at") then
    Some (fun row => Some (VTime (DBTask.created_at row.2)))
  else if decide (field = "updated_at") then
    Some (fun row => Some (VTime (DBTask.updated_at row.2)))
  else if decide (field = "title") then
    Some (fun row => Some (VStr (DBTask.title row.2)))
  else if decide (field = "description") then
    Some (fun row => VStr <$> DBTask.description row.2)
  else if decide (field = "task_type") then
    Some (fun row => Some (VStr (TaskType_value (DBTask.task_type row.2))))
  else if decide (field = "priority") then
    Some (fun row => Some (VStr (TaskPriority_value (DBTask.priority row.2))))
  else if decide (field = "status") then
    Some (fun row => Some (VStr (TaskStatus_value (DBTask.status row.2))))
  else if decide (field = "case_id") then
    Some (fun row => VStr <$> DBTask.case_id row.2)
  else if decide (field = "client_id") then
    Some (fun row => VStr <$> DBTask.client_id row.2)
  else if decide (field = "due_date") then
    Some (fun row => VTime <$> DBTask.due_date row.2)
  else if decide (field = "completed_at") then
    Some (fun row => VTime <$> DBTask.completed_at row.2)
  else if decide (field = "score") then
    Some (fun row => Some (VInt (DBTask.score row.2)))
  else if decide (field = "completed_by") then
    Some (fun row => VStr <$> DBTask.completed_by row.2)
  else if decide (field = "alert_level") then
    Some (fun row => Some (VStr (DBTask.alert_level row.2)))
  else if decide (field = "tags") then
    Some (fun row => VTags <$> DBTask.tags row.2)
  else if decide (field = "notes") then
    Some (fun row => VStr <$> DBTask.notes row.2)
  else None.

(** [column == value] in a [WHERE] clause. *)
Definition sql_eq (a b : value) : bool :=
  match a, b with
  | VStr x, VStr y => bool_decide (x = y)
  | VInt x, VInt y => bool_decide (x = y)
  | VTime x, VTime y => bool_decide (Datetime.instant_utc x = Datetime.instant_utc y)
  | VTags x, VTags y => bool_decide (x = y)
  | _, _ => false
  end.

(** One turn of the filter loop (lines 158-160): a [None] value and an
    unknown column add no condition; a [NULL] cell equals nothing. *)
Definition filter_holds (row : string * DBTask.t) (f : string * option value) : bool :=
  match f.2, column f.1 with
  | Some v, Some read =>
      match read row with
      | Some c => sql_eq c v
      | None => false
      end
  | _, _ => true
  end.

(** The filters of a query; [None] is the default, and like the empty
    dictionary it adds no condition. *)
Definition filters_hold (filters : option (list (string * option value)))
    (row : string * DBTask.t) : bool :=
  forallb (filter_holds row) (default [] filters).

(** The rows of [user_id] that pass the filters. *)
Definition select_rows (db : store) (user_id : string)
    (filters : option (list (string * option value))) : list (string * DBTask.t) :=
  filter (fun row => DBTask.user_id row.2 = user_id /\ filters_hold filters row = true)
    (map_to_list db).

(** [ORDER BY] on a relation, ascending or descending. *)
Definition order_rows (le : relation (string * DBTask.t))
    `{!forall x y, Decision (le x y)} (descending : bool)
    (rows : list (string * DBTask.t)) : list (string * DBTask.t) :=
  if descending then merge_sort (flip le) rows else merge_sort le rows.

(** [LIMIT limit OFFSET offset], which the database refuses when either
    is negative. *)
Definition limit_offset {A : Type} (limit offset : Z) (rows : list A) : result (list A) :=
  if decide (limit < 0 \/ offset < 0) then Raise
  else Ok (take (Z.to_nat limit) (drop (Z.to_nat offset) rows)).

Section Generic.

(** The order of the database on the values of a column. *)
Variable column_le : string -> relation (string * DBTask.t).
Context `{column_le_dec : !forall c x y, Decision (column_le c x y)}.

(** [BaseSQLService.list] (lines 152-179). *)
Definition list_ (db : store) (user_id : string) (limit offset : Z)
    (filters : option (list (string * option value))) (order_by : string)
    (descending : bool) : result (list DBTask.t) :=
  let rows := select_rows db user_id filters in
  let rows :=
    if bool_decide (order_by ≠ "") && bool_decide (is_Some (column order_by))
    then order_rows (column_le order_by) descending rows
    else rows in
  rows ← limit_offset limit offset rows;
  Ok rows.*2.

(** [TaskService.list_by_status] (lines 187-194); [TaskStatusEnum] has the
    values of [TaskStatus]. *)
Definition list_by_status (db : store) (user_id : string) (status : TaskStatus)
    (limit offset : Z) : result (list DBTask.t) :=
  list_ db user_id limit offset
    (Some [("status", Some (VStr (TaskStatus_value status)))]) "due_date" true.

(** [TaskService.list_by_case] (lines 204-210). *)
Definition list_by_case (db : store) (case_id user_id : string) (limit : Z)
    : result (list DBTask.t) :=
  list_ db user_id limit 0 (Some [("case_id", Some (VStr case_id))]) "due_date" true.

End Generic.

(** [BaseSQLService.count] (lines 350-368). *)
Definition count (db : store) (user_id : string)
    (filters : option (list (string * option value))) : Z :=
  Z.of_nat (length (select_rows db user_id filters)).

(** [BaseSQLService.exists] (lines 387-400). *)
Definition exists_ (db : store) (id user_id : string) : bool :=
  match db !! id with
  | Some r => bool_decide (DBTask.user_id r = user_id)
  | None => false
  end.

(** The [WHERE] clause of [list_overdue] (lines 224-229); a [NULL] due
    date is before nothing. *)
Definition is_overdue (user_id : string) (now : Z) (row : string * DBTask.t) : bool :=
  bool_decide (DBTask.user_id row.2 = user_id)
  && bool_decide (DBTask.status row.2 ≠ CONCLUIDA)
  && bool_decide (DBTask.status row.2 ≠ CANCELADA)
  && match DBTask.due_date row.2 with
     | Some due_date => bool_decide (Datetime.instant_utc due_date < now)
     | None => false
     end.

(** The order of [ORDER BY due_date], [NULL] last. *)
Definition due_date_le (a b : string * DBTask.t) : Prop :=
  match DBTask.due_date a.2, DBTask.due_date b.2 with
  | Some x, Some y => Datetime.instant_utc x <= Datetime.instant_utc y
  | _, None => True
  | None, Some _ => False
  end.

(** The same order on tasks. *)
Definition due_le (a b : DBTask.t) : Prop := due_date_le ("", a) ("", b).

#[global] Instance due_date_le_dec a b : Decision (due_date_le a b).
Proof. unfold due_date_le. destruct (DBTask.due_date a.2), (DBTask.due_date b.2); apply _. Defined.

(** [TaskService.list_overdue] (lines 219-238): any failure of the query
    is caught and answered by the empty list. *)
Definition list_overdue (db : store) (user_id : string) (now : Z) (limit : Z)
    : list DBTask.t :=
  let rows := filter (fun row => is_overdue user_id now row = true) (map_to_list db) in
  let rows := order_rows due_date_le false rows in
  match limit_offset limit 0 rows with
  | Ok rows => rows.*2
  | Raise => []
  end.

(** The dictionary [get_productivity_stats] returns.  [avg_score] is kept
    as the exact average, a fraction; the source turns the database's
    number into a float. *)
Record stats : Type := mkStats {
  tasks_completed : Z;
  total_score : Z;
  avg_score : Z * Z
}.

(** [TaskService.get_productivity_stats] (lines 255-283): the aggregates
    of an empty selection are [NULL], which [or] replaces by zero. *)
Definition get_productivity_stats (db : store) (user_id : string) : stats :=
  let rows :=
    filter (fun row => DBTask.user_id row.2 = user_id /\ DBTask.status row.2 = CONCLUIDA)
      (map_to_list db) in
  let scores := (fun row => DBTask.score row.2) <$> rows in
  {| tasks_completed := Z.of_nat (length rows);
     total_score := foldr Z.add 0 scores;
     avg_score :=
       match rows with
       | [] => (0, 1)
       | _ => (foldr Z.add 0 scores, Z.of_nat (length rows))
       end |}.

End Queries.

(** ** A sample order of the database *)

Module QuerySample.

(** An order of the rows for every column: by due date, whatever the
    column. *)
Definition by_due_date : string -> relation (string * DBTask.t) :=
  fun _ => Queries.due_date_le.

#[global] Instance by_due_date_dec c x y : Decision (by_due_date c x y) :=
  Queries.due_date_le_dec x y.

End QuerySample.

(** ** Validators of Brazilian documents and telephones
    ([core/validators.py], used by the client schemas of [schemas.py])

    A Python [str] is the list of its characters. *)

Module Validators.
Import Stdlib.Strings.Ascii.

(** A character of the class [[0-9]]. *)
Definition is_digit (c : ascii) : bool :=
  bool_decide (48 <= Z.of_nat (nat_of_ascii c) <= 57).

(** [re.sub(r'[^0-9]', '', s)]. *)
Definition only_digits (s : list ascii) : list ascii :=
  filter (fun c => is_digit c = true) s.

(** [int(c)] on a digit. *)
Definition int_of_digit (c : ascii) : Z := Z.of_nat (nat_of_ascii c) - 48.

(** [int(s)] on a string of digits. *)
Definition int_of_digits (s : list ascii) : Z :=
  foldl (fun n c => 10 * n + int_of_digit c) 0 s.

(** [s[i]], for an index within the string. *)
Definition char_at (s : list ascii) (i : nat) : ascii := nth i s "000"%char.

(** [s[a:b]] for [0 <= a <= b]. *)
Definition slice (s : list ascii) (a b : nat) : list ascii := take (b - a) (drop a s).

(** [sum(f(i) for i in range(n))]. *)
Definition sum_range (n : nat) (f : nat -> Z) : Z := foldr Z.add 0 (f <$> seq 0 n).

(** Lines 24-50. *)
Definition validate_cpf (cpf : list ascii) : bool :=
  let cpf := only_digits cpf in
  if decide (length cpf ≠ 11%nat) then false
  else if decide (cpf = replicate 11 (char_at cpf 0)) then false
  else
    let soma := sum_range 9 (fun i => int_of_digit (char_at cpf i) * (10 - Z.of_nat i)) in
    let resto := (soma * 10) mod 11 in
    let resto := if decide (resto = 10) then 0 else resto in
    if decide (resto ≠ int_of_digit (char_at cpf 9)) then false
    else
      let soma := sum_range 10 (fun i => int_of_digit (char_at cpf i) * (11 - Z.of_nat i)) in
      let resto := (soma * 10) mod 11 in
      let resto := if decide (resto = 10) then 0 else resto in
      if decide (resto ≠ int_of_digit (char_at cpf 10)) then false
      else true.

Definition multiplicadores1 : list Z := [5; 4; 3; 2; 9; 8; 7; 6; 5; 4; 3; 2].
Definition multiplicadores2 : list Z := [6; 5; 4; 3; 2; 9; 8; 7; 6; 5; 4; 3; 2].

(** Lines 64-90. *)
Definition validate_cnpj (cnpj : list ascii) : bool :=
  let cnpj := only_digits cnpj in
  if decide (length cnpj ≠ 14%nat) then false
  else if decide (cnpj = replicate 14 (char_at cnpj 0)) then false
  else
    let soma :=
      sum_range 12 (fun i => int_of_digit (char_at cnpj i) * nth i multiplicadores1 0) in
    let resto := soma mod 11 in
    let digito1 := if decide (resto < 2) then 0 else 11 - resto in
    if decide (digito1 ≠ int_of_digit (char_at cnpj 12)) then false
    else
      let soma :=
        sum_range 13 (fun i => int_of_digit (char_at cnpj i) * nth i multiplicadores2 0) in
      let resto := soma mod 11 in
      let digito2 := if decide (resto < 2) then 0 else 11 - resto in
      if decide (digito2 ≠ int_of_digit (char_at cnpj 13)) then false
      else true.

(** Lines 103-110. *)
Definition validate_cpf_cnpj (value : list ascii) : bool :=
  let digits := only_digits value in
  if decide (length digits = 11%nat) then validate_cpf value
  else if decide (length digits = 14%nat) then validate_cnpj value
  else false.

(** Lines 115-118. *)
Definition format_cpf (cpf : list ascii) : list ascii :=
  let digits := only_digits cpf in
  if decide (length digits ≠ 11%nat) then cpf
  else slice digits 0 3 ++ ["."%char] ++ slice digits 3 6 ++ ["."%char]
       ++ slice digits 6 9 ++ ["-"%char] ++ drop 9 digits.

(** Lines 123-126. *)
Definition format_cnpj (cnpj : list ascii) : list ascii :=
  let digits := only_digits cnpj in
  if decide (length digits ≠ 14%nat) then cnpj
  else slice digits 0 2 ++ ["."%char] ++ slice digits 2 5 ++ ["."%char]
       ++ slice digits 5 8 ++ ["/"%char] ++ slice digits 8 12 ++ ["-"%char]
       ++ drop 12 digits.

(** Lines 131-136. *)
Definition format_cpf_cnpj (value : list ascii) : list ascii :=
  let digits := only_digits value in
  if decide (length digits = 11%nat) then format_cpf value
  else if decide (length digits = 14%nat) then format_cnpj value
  else value.

(** Lines 154-169. *)
Definition validate_phone (phone : list ascii) : bool :=
  let digits := only_digits phone in
  if decide (length digits ≠ 10%nat /\ length digits ≠ 11%nat) then false
  else
    let ddd := int_of_digits (slice digits 0 2) in
    if decide (ddd < 11 \/ ddd > 99) then false
    else if decide (length digits = 11%nat /\ char_at digits 2 ≠ "9"%char) then false
    else true.

(** Lines 174-181. *)
Definition format_phone (phone : list ascii) : list ascii :=
  let digits := only_digits phone in
  if decide (length digits = 11%nat) then
    ["("%char] ++ slice digits 0 2 ++ [")"%char; " "%char] ++ slice digits 2 7
    ++ ["-"%char] ++ drop 7 digits
  else if decide (length digits = 10%nat) then
    ["("%char] ++ slice digits 0 2 ++ [")"%char; " "%char] ++ slice digits 2 6
    ++ ["-"%char] ++ drop 6 digits
  else phone.

(** [ClientBase.validate_and_format_cpf_cnpj] ([schemas.py], lines
    176-183); raising [ValueError] rejects the request. *)
Definition validate_and_format_cpf_cnpj (v : list ascii) : result (list ascii) :=
  if decide (v = []) then Raise
  else if negb (validate_cpf_cnpj v) then Raise
  else Ok (format_cpf_cnpj v).

(** [ClientBase.validate_and_format_phone] ([schemas.py], lines 185-192). *)
Definition validate_and_format_phone (v : list ascii) : result (list ascii) :=
  if decide (v = []) then Raise
  else if negb (validate_phone v) then Raise
  else Ok (format_phone v).

(** [validate_secondary_phone] of [ClientBase] and [ClientUpdate]
    ([schemas.py], lines 194-201 and 256-263). *)
Definition validate_secondary_phone (v : option (list ascii))
    : result (option (list ascii)) :=
  match v with
  | None => Ok None
  | Some v =>
      if decide (v = []) then Ok None
      else if negb (validate_phone v) then Raise
      else Ok (Some (format_phone v))
  end.

(** [ClientUpdate.validate_and_format_phone] ([schemas.py], lines
    247-254). *)
Definition update_validate_and_format_phone (v : option (list ascii))
    : result (option (list ascii)) :=
  match v with
  | None => Ok None
  | Some v =>
      if negb (validate_phone v) then Raise
      else Ok (Some (format_phone v))
  end.

End Validators.

(** ** Tallies over the table, for the statements about queries *)

Module QueryAux.
Import Queries.

(** The number of rows with property [P]. *)
Definition tally (P : string * DBTask.t -> Prop) `{!forall row, Decision (P row)}
    (db : store) : Z :=
  Z.of_nat (length (filter P (map_to_list db))).

Definition one_if (P : Prop) `{!Decision P} : Z := if decide P then 1 else 0.

(** The overdue rows in the order of the query. *)
Definition overdue_rows (db : store) (u : string) (now : Z) : list (string * DBTask.t) :=
  order_rows due_date_le false
    (filter (fun row => is_overdue u now row = true) (map_to_list db)).

(** The sum of the scores of the rows with property [P]. *)
Definition score_sum (P : string * DBTask.t -> Prop) `{!forall row, Decision (P row)}
    (db : store) : Z :=
  foldr Z.add 0 ((fun row => DBTask.score row.2) <$> filter P (map_to_list db)).

(** The selection of [get_productivity_stats]. *)
Definition concluded_of (u : string) (row : string * DBTask.t) : Prop :=
  DBTask.user_id row.2 = u /\ DBTask.status row.2 = CONCLUIDA.

#[global] Instance concluded_of_dec u row : Decision (concluded_of u row).
Proof. unfold concluded_of. apply _. Defined.

End QueryAux.

(** ** The check digits, for the statements about documents *)

Module ValidatorAux.
Import Stdlib.Strings.Ascii Validators.

(** The check digit the CPF algorithm computes from the [n] digits before
    it. *)
Definition cpf_check (n : nat) (d : list ascii) : Z :=
  let soma :=
    sum_range n (fun i => int_of_digit (char_at d i) * (Z.of_nat n + 1 - Z.of_nat i)) in
  let resto := (soma * 10) mod 11 in
  if decide (resto = 10) then 0 else resto.

(** The check digit the CNPJ algorithm computes from the [n] digits before
    it, with the weights [mult]. *)
Definition cnpj_check (n : nat) (mult : list Z) (d : list ascii) : Z :=
  let soma := sum_range n (fun i => int_of_digit (char_at d i) * nth i mult 0) in
  let resto := soma mod 11 in
  if decide (resto < 2) then 0 else 11 - resto.

End ValidatorAux.

(** ** What a partial update asks for, for the statements about [update] *)

Module UpdateAux.


(** The request sets a [nullable=False] column to [null]. *)
Definition nulls_required (data : TaskUpdate.t) : Prop :=
  TaskUpdate.title data = Some None
  \/ TaskUpdate.task_type data = Some None
  \/ TaskUpdate.priority data = Some None
  \/ TaskUpdate.status data = Some None.

#[global] Instance nulls_required_dec data : Decision (nulls_required data).
Proof. unfold nulls_required. apply _. Defined.

(** The request gives [case_id] or [client_id] a value wider than the 36
    characters of its column. *)
Definition too_wide (data : TaskUpdate.t) : Prop :=
  ¬ DBTask.fits 36 (default None (TaskUpdate.case_id data))
  \/ ¬ DBTask.fits 36 (default None (TaskUpdate.client_id data)).

(** A request the commit refuses. *)
Definition refused (data : TaskUpdate.t) : Prop :=
  nulls_required data \/ too_wide data.

#[global] Instance refused_dec data : Decision (refused data).
Proof. unfold refused, too_wide. apply _. Defined.


End UpdateAux.

(** ** Scales used in statements *)

Module Scale.

(** The six alert levels. *)
Definition alert_levels : list string :=
  ["overdue"; "fatal"; "critical"; "warning"; "attention"; "normal"].

(** Alert levels from the most urgent to the least. *)
Definition urgency (level : string) : Z :=
  if decide (level = "overdue") then 0
  else if decide (level = "fatal") then 1
  else if decide (level = "critical") then 2
  else if decide (level = "warning") then 3
  else if decide (level = "attention") then 4
  else 5.

(** Priorities from the lowest to the highest. *)
Definition priority_rank (p : TaskPriority) : Z :=
  match p with
  | BAIXA => 0
  | MEDIA => 1
  | ALTA => 2
  | URGENTE => 3
  end.

End Scale.

(** * Properties *)

(** ** Score calculator *)

Module ScoreFacts.
Import Score.

Lemma TASK_SCORES_unknown (task_type : string) :
  task_type ∉ known_task_types ->
  Py.dict_get TASK_SCORES task_type 25 = 25.
Proof.
  intros Hout. unfold Py.dict_get, TASK_SCORES.
  by rewrite (proj1 (not_elem_of_list_to_map TASK_SCORES_items task_type) Hout).
Qed.

Lemma PRIORITY_MULTIPLIERS_unknown (priority : string) :
  priority ∉ known_priorities ->
  Py.dict_get PRIORITY_MULTIPLIERS priority 1.0%float = 1.0%float.
Proof.
  intros Hout. unfold Py.dict_get, PRIORITY_MULTIPLIERS.
  by rewrite (proj1 (not_elem_of_list_to_map PRIORITY_MULTIPLIERS_items priority) Hout).
Qed.

Lemma TASK_SCORES_known (t : TaskType) :
  Py.dict_get TASK_SCORES (TaskType_value t) 25 = base_points t.
Proof. by destruct t; vm_compute. Qed.

Ltac split_membership H :=
  repeat (apply elem_of_cons in H as [-> | H]); [.. | by apply elem_of_nil in H].

Lemma base_score_cases (task_type : string) :
  Py.dict_get TASK_SCORES task_type 25 ∈ [100; 80; 90; 50; 40; 60; 70; 30; 20; 25].
Proof.
  destruct (decide (task_type ∈ known_task_types)) as [Hin | Hout].
  - unfold known_task_types in Hin. cbn in Hin.
    split_membership Hin; vm_compute; set_solver.
  - rewrite TASK_SCORES_unknown by done. set_solver.
Qed.

Lemma multiplier_cases (priority : string) :
  Py.dict_get PRIORITY_MULTIPLIERS priority 1.0%float
    ∈ [0.8%float; 1.0%float; 1.3%float; 1.5%float].
Proof.
  destruct (decide (priority ∈ known_priorities)) as [Hin | Hout].
  - unfold known_priorities in Hin. cbn in Hin.
    split_membership Hin; vm_compute; set_solver.
  - rewrite PRIORITY_MULTIPLIERS_unknown by done. set_solver.
Qed.

Lemma calculate_score_returns (task_type priority : string) :
  exists n, _calculate_score task_type priority = Ok n /\ 0 <= n.
Proof.
  unfold _calculate_score, score_product.
  pose proof (base_score_cases task_type) as Hb.
  pose proof (multiplier_cases priority) as Hm.
  generalize dependent (Py.dict_get TASK_SCORES task_type 25).
  generalize dependent (Py.dict_get PRIORITY_MULTIPLIERS priority 1.0%float).
  intros m Hm b Hb.
  split_membership Hb; split_membership Hm;
    (eexists; split; [vm_compute; reflexivity | lia]).
Qed.

(** C1, as stated, fails: for category [outro] and priority [urgente] the
    calculator returns 37, while rounding the product 37.5 gives 38, with
    ties to even as with ties upward, on the floating-point product as on
    the exact one. *)
Lemma calculate_score_is_not_round :
  _calculate_score (TaskType_value OUTRO) (TaskPriority_value URGENTE) = Ok 37
  /\ Py.round (score_product (TaskType_value OUTRO) (TaskPriority_value URGENTE)) = Ok 38
  /\ Py.round_half_up (score_product (TaskType_value OUTRO) (TaskPriority_value URGENTE)) = Ok 38
  /\ exact_round_half_even OUTRO URGENTE = 38
  /\ exact_round_half_up OUTRO URGENTE = 38.
Proof. repeat split; vm_compute; reflexivity. Qed.

(** C1, amended: for every category and priority the calculator returns
    the integer part of [base_points * priority_multiplier] (the product
    cut toward zero, not rounded), with the base points and multipliers of
    the tables; the result is non-negative; it is the rounded product for
    every pair but ([outro], [urgente]), where it is 37; ([audiencia],
    [urgente]) gives 150 and ([administrativo], [baixa]) gives 16. *)
Theorem calculate_score_truncates (t : TaskType) (p : TaskPriority) :
  _calculate_score (TaskType_value t) (TaskPriority_value p) = Ok (exact_floor t p)
  /\ 0 <= exact_floor t p
  /\ _calculate_score (TaskType_value t) (TaskPriority_value p)
     = (if decide (t = OUTRO /\ p = URGENTE) then Ok 37
        else Py.round (score_product (TaskType_value t) (TaskPriority_value p)))
  /\ exact_floor t p
     = (if decide (t = OUTRO /\ p = URGENTE) then 37 else exact_round_half_even t p)
  /\ _calculate_score (TaskType_value AUDIENCIA) (TaskPriority_value URGENTE) = Ok 150
  /\ _calculate_score (TaskType_value ADMINISTRATIVO) (TaskPriority_value BAIXA) = Ok 16.
Proof.
  destruct t, p; repeat split; vm_compute; congruence.
Qed.

(** The product of a base score of the table and the multiplier 1.0 has
    that base score as its integer part. *)
Lemma calculate_score_unknown_priority (task_type priority : string) :
  priority ∉ known_priorities ->
  _calculate_score task_type priority = Ok (Py.dict_get TASK_SCORES task_type 25).
Proof.
  intros Hout. unfold _calculate_score, score_product.
  rewrite PRIORITY_MULTIPLIERS_unknown by done.
  pose proof (base_score_cases task_type) as Hb.
  generalize dependent (Py.dict_get TASK_SCORES task_type 25).
  intros b Hb. split_membership Hb; vm_compute; reflexivity.
Qed.

(** C6: the calculator returns on every pair of keys.  On a category
    outside the ten known values it computes with 25 base points: its
    result is the integer part of 25 times the priority's multiplier, that
    is 20, 25, 32 and 37 for the four priorities.  On a priority outside
    the four known values it computes with the multiplier 1.0: its result
    is the category's base points.  When both are unknown it returns
    25. *)
Theorem calculate_score_never_fails (task_type priority : string) :
  (exists n, _calculate_score task_type priority = Ok n)
  /\ (task_type ∉ known_task_types ->
      Py.dict_get TASK_SCORES task_type 25 = 25
      /\ _calculate_score task_type priority
         = Py.int (Py.float_of_int 25
                   * Py.dict_get PRIORITY_MULTIPLIERS priority 1.0%float)%float
      /\ forall p, priority = TaskPriority_value p ->
           _calculate_score task_type priority
           = Ok (let '(n, d) := priority_multiplier p in 25 * n / d))
  /\ (priority ∉ known_priorities ->
      Py.dict_get PRIORITY_MULTIPLIERS priority 1.0%float = 1.0%float
      /\ _calculate_score task_type priority
         = Ok (Py.dict_get TASK_SCORES task_type 25)
      /\ forall t, task_type = TaskType_value t ->
           _calculate_score task_type priority = Ok (base_points t))
  /\ (task_type ∉ known_task_types -> priority ∉ known_priorities ->
      _calculate_score task_type priority = Ok 25).
Proof.
  split; [| split; [| split]].
  - destruct (calculate_score_returns task_type priority) as (n & Hn & _).
    by exists n.
  - intros Hout. split; [by apply TASK_SCORES_unknown |].
    unfold _calculate_score, score_product.
    rewrite TASK_SCORES_unknown by done. split; [reflexivity |].
    intros p ->. destruct p; vm_compute; reflexivity.
  - intros Hout. split; [by apply PRIORITY_MULTIPLIERS_unknown |].
    split; [by apply calculate_score_unknown_priority |].
    intros t ->. rewrite calculate_score_unknown_priority by done.
    by rewrite TASK_SCORES_known.
  - intros Htype Hpriority. rewrite calculate_score_unknown_priority by done.
    by rewrite TASK_SCORES_unknown.
Qed.

Lemma calculate_score_never_fails_witness :
  ("parecer" ∉ known_task_types)
  /\ ("baixissima" ∉ known_priorities)
  /\ _calculate_score "parecer" "baixissima" = Ok 25
  /\ _calculate_score "parecer" "urgente" = Ok 37
  /\ _calculate_score "parecer" "baixa" = Ok 20
  /\ _calculate_score "audiencia" "baixissima" = Ok 100.
Proof.
  assert (H1 : "parecer" ∉ known_task_types) by compute_done.
  assert (H2 : "baixissima" ∉ known_priorities) by compute_done.
  split; [exact H1 |]. split; [exact H2 |].
  split; [| split; [| split]].
  - by apply (calculate_score_never_fails "parecer" "baixissima").
  - destruct (calculate_score_never_fails "parecer" "urgente") as (_ & Hb & _).
    destruct (Hb H1) as (_ & _ & Hp). exact (Hp URGENTE eq_refl).
  - destruct (calculate_score_never_fails "parecer" "baixa") as (_ & Hb & _).
    destruct (Hb H1) as (_ & _ & Hp). exact (Hp BAIXA eq_refl).
  - destruct (calculate_score_never_fails "audiencia" "baixissima") as (_ & _ & Hm & _).
    destruct (Hm H2) as (_ & _ & Ht). exact (Ht AUDIENCIA eq_refl).
Defined.

End ScoreFacts.

(** ** Alert classifier *)

Module AlertFacts.
Import Alert.

Lemma sub_aware (a : datetime) (off now : Z) :
  tzinfo a = Some off ->
  Datetime.sub a (Datetime.now_utc now)
  = Ok (Datetime.timedelta_of_us (Datetime.instant_utc a - now)).
Proof.
  intros Ha. unfold Datetime.sub, Datetime.instant_utc, Datetime.now_utc, Datetime.utc.
  rewrite Ha. simpl. do 2 f_equal. lia.
Qed.

(** Subtracting the aware [now] from a naive value raises: the
    normalisation of lines 85-86 is what keeps the classifier total. *)
Lemma sub_naive_aware (a : datetime) (now : Z) :
  tzinfo a = None -> Datetime.sub a (Datetime.now_utc now) = Raise.
Proof. intros Ha. unfold Datetime.sub. by rewrite Ha. Qed.

Lemma get_alert_level_days (now : Z) (due_date : datetime) :
  _get_alert_level now due_date = Ok (level_of_diff_days (diff_days now due_date)).
Proof.
  unfold _get_alert_level, diff_days.
  set (due := match tzinfo due_date with
              | None => Datetime.replace_tzinfo due_date Datetime.utc
              | Some _ => due_date
              end).
  assert (Hi : Datetime.instant_utc due = Datetime.instant_utc due_date).
  { subst due. unfold Datetime.instant_utc.
    destruct (tzinfo due_date) eqn:E; simpl; by rewrite ?E. }
  assert (Ht : exists off, tzinfo due = Some off).
  { subst due. destruct (tzinfo due_date) eqn:E; simpl; eauto. }
  destruct Ht as [off Ht].
  rewrite (sub_aware due off now Ht), Hi. simpl.
  set (d := (Datetime.instant_utc due_date - now) / Datetime.us_per_day).
  unfold level_of_diff_days.
  destruct (Z.ltb_spec d 0), (Z.eqb_spec d 0), (Z.eqb_spec d 1),
    (Z.leb_spec d 3), (Z.leb_spec d 7);
    repeat case_decide; (reflexivity || lia).
Qed.

End AlertFacts.

(** ** Rows and the generic service *)

Module StoreFacts.
Import BaseSQLService Inv.

(** Scoring a category and a priority of the enumerations. *)
Lemma calculate_score_known (t : TaskType) (p : TaskPriority) :
  Score._calculate_score (TaskType_value t) (TaskPriority_value p)
  = Ok (Score.exact_floor t p).
Proof. destruct t, p; vm_compute; reflexivity. Qed.

(** *** Setters and the columns they leave alone *)

Ltac keeps_tac := intros ? []; reflexivity.

Lemma update_keeps_user_id : update_keeps DBTask.user_id.
Proof. repeat split; keeps_tac. Qed.
Lemma update_keeps_score : update_keeps DBTask.score.
Proof. repeat split; keeps_tac. Qed.
Lemma update_keeps_alert_level : update_keeps DBTask.alert_level.
Proof. repeat split; keeps_tac. Qed.
Lemma update_keeps_completed_at : update_keeps DBTask.completed_at.
Proof. repeat split; keeps_tac. Qed.
Lemma update_keeps_completed_by : update_keeps DBTask.completed_by.
Proof. repeat split; keeps_tac. Qed.

Lemma has_value_nullable {X V : Type} (f : DBTask.t -> X) (c : X)
    (setter : option V -> DBTask.t -> DBTask.t) field o :
  keeps f setter -> has_value f c o -> has_value f c (set_nullable setter field o).
Proof.
  intros Hk Ho r'. unfold set_nullable.
  destruct field as [v |]; [| apply Ho].
  destruct o as [r0 |]; simpl; [| discriminate].
  intros [= <-]. rewrite Hk. by apply Ho.
Qed.

Lemma has_value_required {X V : Type} (f : DBTask.t -> X) (c : X)
    (setter : V -> DBTask.t -> DBTask.t) field o :
  keeps f setter -> has_value f c o -> has_value f c (set_required setter field o).
Proof.
  intros Hk Ho r'. unfold set_required.
  destruct field as [[v |] |]; [| discriminate | apply Ho].
  destruct o as [r0 |]; simpl; [| discriminate].
  intros [= <-]. rewrite Hk. by apply Ho.
Qed.

Lemma has_value_varchar {X : Type} (f : DBTask.t -> X) (c : X) n
    (setter : option string -> DBTask.t -> DBTask.t) field o :
  keeps f setter -> has_value f c o -> has_value f c (set_varchar n setter field o).
Proof.
  intros Hk Ho r'. unfold set_varchar.
  destruct field as [v |]; [| apply Ho].
  case_decide; [| discriminate].
  destruct o as [r0 |]; simpl; [| discriminate].
  intros [= <-]. rewrite Hk. by apply Ho.
Qed.

Ltac has_value_chain :=
  repeat (apply has_value_nullable || apply has_value_required
          || apply has_value_varchar);
  try keeps_tac.

Lemma apply_update_keeps {X : Type} (f : DBTask.t -> X) data now r r' :
  update_keeps f -> apply_update data now r = Ok r' -> f r' = f r.
Proof.
  intros (K1 & K2 & K3 & K4 & K5 & K6 & K7 & K8 & K9 & K10 & K11).
  unfold apply_update.
  match goal with
  | |- mbind _ ?o = _ -> _ => assert (Ho : has_value f (f r) o)
  end.
  { repeat (apply has_value_nullable || apply has_value_required
            || apply has_value_varchar); try done.
    by intros ? [= <-]. }
  match type of Ho with has_value _ _ ?o => destruct o as [r0 |] end;
    simpl; [| discriminate].
  intros [= <-]. rewrite K11. by apply Ho.
Qed.

(** The due date after an update: the one the request set, else the old
    one. *)
Lemma apply_update_due_date data now r r' :
  apply_update data now r = Ok r' ->
  DBTask.due_date r' = default (DBTask.due_date r) (TaskUpdate.due_date data).
Proof.
  unfold apply_update.
  set (o5 := set_required DBTask.set_status _ _).
  assert (H5 : has_value DBTask.due_date (DBTask.due_date r) o5).
  { subst o5. has_value_chain. by intros ? [= <-]. }
  set (c := default (DBTask.due_date r) (TaskUpdate.due_date data)).
  set (o6 := set_nullable DBTask.set_due_date _ o5).
  assert (H6 : has_value DBTask.due_date c o6).
  { subst o6 c. unfold set_nullable.
    destruct (TaskUpdate.due_date data) as [v |]; simpl; [| exact H5].
    destruct o5 as [r0 |]; simpl; [| by intros ? [=]].
    intros ? [= <-]. by destruct r0. }
  clearbody o6.
  match goal with
  | |- mbind _ ?o = _ -> _ => assert (Ho : has_value DBTask.due_date c o)
  end.
  { has_value_chain. exact H6. }
  match type of Ho with has_value _ _ ?o => destruct o as [r0 |] end;
    simpl; [| discriminate].
  intros [= <-]. rewrite <- (Ho r0 eq_refl). by destruct r0.
Qed.

(** *** Reading the table *)

Lemma get_Some db id u r :
  get db id u = Some r <-> db !! id = Some r /\ DBTask.user_id r = u.
Proof.
  unfold get. destruct (db !! id) as [r0 |]; simpl.
  - case_decide; split; [intros [= <-] | intros [[= <-] ?] | | intros [[= <-] ?]];
      done.
  - split; [done | by intros [? _]].
Qed.

Lemma get_other db id u r :
  db !! id = Some r -> DBTask.user_id r ≠ u -> get db id u = None.
Proof.
  intros Hr Hu. unfold get. rewrite Hr. simpl. by rewrite decide_False.
Qed.

Lemma get_owned db id u : get db id u = owned u db !! id.
Proof.
  unfold get, owned. rewrite map_lookup_filter.
  destruct (db !! id) as [r |]; simpl; [| done].
  by case_decide; simplify_option_eq.
Qed.

(** *** What the operations do *)

Lemma create_prepared db data u now id :
  TaskService.create db data u now id
  = BaseSQLService.create db data u
      (Score.exact_floor (TaskCreate.task_type data) (TaskCreate.get_priority data))
      (initial_alert now data) now id.
Proof.
  unfold TaskService.create, initial_alert.
  rewrite calculate_score_known. simpl.
  destruct (TaskCreate.get_due_date data) as [d |]; simpl; [| done].
  by rewrite AlertFacts.get_alert_level_days.
Qed.

Lemma create_cases db data u now id :
  TaskService.create db data u now id = (Raise, db)
  \/ exists r, TaskService.create db data u now id = (Ok r, <[id := r]> db)
       /\ db !! id = None /\ created data u now r.
Proof.
  rewrite create_prepared. unfold BaseSQLService.create.
  case_decide; [by left |].
  case_decide; [by left |].
  destruct (db !! id) as [r0 |] eqn:E; [by left |].
  right. eexists. split; [reflexivity |]. split; [done |].
  by repeat split.
Qed.

Lemma create_returns db data u now id :
  only_columns data -> db !! id = None ->
  exists r, TaskService.create db data u now id = (Ok r, <[id := r]> db)
       /\ created data u now r.
Proof.
  intros (Ha & Hl & Hp & Hcase & Hclient) Hid.
  rewrite create_prepared. unfold BaseSQLService.create.
  rewrite Ha, Hl, Hp, Hid.
  rewrite decide_False by (intros [[? [=]] | [[? [=]] | [? [=]]]]).
  rewrite decide_False by (intros Hwide; by apply Hwide).
  eexists. split; [reflexivity |]. by repeat split.
Qed.

Lemma update_cases db id data u now :
  (get db id u = None /\ update db id data u now = (Ok None, db))
  \/ (exists r, get db id u = Some r /\ apply_update data now r = Raise
        /\ update db id data u now = (Raise, db))
  \/ (exists r r', get db id u = Some r /\ apply_update data now r = Ok r'
        /\ update db id data u now = (Ok (Some r'), <[id := r']> db)).
Proof.
  unfold update. destruct (get db id u) as [r |]; [| by left].
  right. destruct (apply_update data now r) as [r' |] eqn:E.
  - right. by exists r, r'.
  - left. by exists r.
Qed.

Lemma complete_task_cases db id u cb now :
  (get db id u = None /\ TaskService.complete_task db id u cb now = (None, db))
  \/ (exists r, get db id u = Some r
        /\ TaskService.complete_task db id u cb now
           = (Some (completed_row r u cb now), <[id := completed_row r u cb now]> db)).
Proof.
  unfold TaskService.complete_task. destruct (get db id u) as [r |]; [| by left].
  right. by exists r.
Qed.

(** Where a row of the table after a step comes from. *)
Lemma step_lookup_cases db o id r' :
  step db o !! id = Some r' ->
  db !! id = Some r'
  \/ (exists data u now, o = OpCreate data u now id /\ db !! id = None
        /\ created data u now r')
  \/ (exists data u now r, o = OpUpdate id data u now /\ get db id u = Some r
        /\ apply_update data now r = Ok r')
  \/ (exists u cb now r, o = OpComplete id u cb now /\ get db id u = Some r
        /\ r' = completed_row r u cb now).
Proof.
  destruct o as [data u now new_id | id0 data u now | id0 u | id0 u cb now]; simpl.
  - destruct (create_cases db data u now new_id) as [-> | (r & -> & Hnone & Hc)];
      simpl; [by left |].
    destruct (decide (new_id = id)) as [-> | Hne].
    + rewrite lookup_insert_eq. intros [= <-]. right; left. by exists data, u, now.
    + rewrite lookup_insert_ne by done. by left.
  - destruct (update_cases db id0 data u now)
      as [[_ ->] | [(r & _ & _ & ->) | (r & r1 & Hg & Ha & ->)]]; simpl;
      [by left | by left |].
    destruct (decide (id0 = id)) as [-> | Hne].
    + rewrite lookup_insert_eq. intros [= <-]. right; right; left.
      by exists data, u, now, r.
    + rewrite lookup_insert_ne by done. by left.
  - unfold delete. destruct (get db id0 u); simpl; [| by left].
    destruct (decide (id0 = id)) as [-> | Hne].
    + by rewrite lookup_delete_eq.
    + rewrite lookup_delete_ne by done. by left.
  - destruct (complete_task_cases db id0 u cb now) as [[_ ->] | (r & Hg & ->)];
      simpl; [by left |].
    destruct (decide (id0 = id)) as [-> | Hne].
    + rewrite lookup_insert_eq. intros [= <-]. right; right; right.
      by exists u, cb, now, r.
    + rewrite lookup_insert_ne by done. by left.
Qed.

End StoreFacts.

(** ** Alert levels of stored tasks *)

Module AlertClaims.
Import Alert Inv StoreFacts.

(** C2: the classifier returns the level of the table for
    [diff_days = floor((due_date - now) / 1 day)]: [overdue] below 0,
    [fatal] at 0, [critical] at 1, [warning] for 2 and 3, [attention] for 4
    to 7, [normal] above 7; and a task created with no due date is stored
    with alert level [normal]. *)
Theorem alert_level_by_diff_days (now : Z) :
  (forall due_date,
     _get_alert_level now due_date = Ok (level_of_diff_days (diff_days now due_date)))
  /\ (forall db data u id,
        TaskCreate.get_due_date data = None -> only_columns data -> db !! id = None ->
        exists r, TaskService.create db data u now id = (Ok r, <[id := r]> db)
             /\ DBTask.alert_level r = "normal")
  /\ (forall db data u id,
        TaskCreate.get_due_date data = None ->
        match (TaskService.create db data u now id).1 with
        | Ok r => DBTask.alert_level r = "normal"
        | Raise => True
        end).
Proof.
  split; [| split].
  - apply AlertFacts.get_alert_level_days.
  - intros db data u id Hdue Hcols Hid.
    destruct (create_returns db data u now id Hcols Hid) as (r & Hr & Hc).
    exists r. split; [done |].
    destruct Hc as (_ & _ & -> & _). unfold initial_alert. by rewrite Hdue.
  - intros db data u id Hdue.
    destruct (create_cases db data u now id) as [-> | (r & -> & _ & Hc)]; simpl; [done |].
    destruct Hc as (_ & _ & -> & _). unfold initial_alert. by rewrite Hdue.
Qed.

Lemma alert_level_by_diff_days_witness :
  _get_alert_level (Sample.noon 10) Sample.due_same_day = Ok "fatal"
  /\ exists r, TaskService.create ∅ (Sample.hearing None) "alice" (Sample.noon 10) "t2"
            = (Ok r, <[ "t2" := r ]> ∅)
          /\ DBTask.alert_level r = "normal".
Proof.
  destruct (alert_level_by_diff_days (Sample.noon 10)) as (Hlevel & Hcreate & _).
  split.
  - rewrite Hlevel. reflexivity.
  - apply Hcreate; [reflexivity | by repeat split | reflexivity].
Defined.

(** C7: a naive due date is classified as the same wall-clock reading
    tagged UTC, and its classification returns a level. *)
Theorem naive_due_date_read_as_utc (now : Z) (t : datetime) :
  tzinfo t = None ->
  _get_alert_level now t = _get_alert_level now (Datetime.replace_tzinfo t Datetime.utc)
  /\ exists level, _get_alert_level now t = Ok level.
Proof.
  intros Hnaive. rewrite !AlertFacts.get_alert_level_days. split; [| by eexists].
  do 2 f_equal. unfold diff_days, Datetime.instant_utc, Datetime.utc.
  rewrite Hnaive. reflexivity.
Qed.

Lemma naive_due_date_read_as_utc_witness :
  _get_alert_level (Sample.noon 10) Sample.due_same_day
  = _get_alert_level (Sample.noon 10)
      (Datetime.replace_tzinfo Sample.due_same_day Datetime.utc)
  /\ exists level, _get_alert_level (Sample.noon 10) Sample.due_same_day = Ok level.
Proof.
  apply (naive_due_date_read_as_utc (Sample.noon 10) Sample.due_same_day).
  reflexivity.
Defined.

End AlertClaims.

(** ** Histories of tasks *)

Module TaskClaims.
Import BaseSQLService Inv StoreFacts.

(** What an update does to column [f] of every row when the update loop
    cannot write [f]. *)
Lemma update_column_frame {X : Type} (f : DBTask.t -> X) db id data u now id' :
  update_keeps f ->
  f <$> (update db id data u now).2 !! id' = f <$> db !! id'.
Proof.
  intros Hk.
  destruct (update_cases db id data u now)
    as [[_ ->] | [(r & _ & _ & ->) | (r & r' & Hg & Ha & ->)]]; simpl; [done | done |].
  destruct (decide (id = id')) as [<- | Hne].
  - apply get_Some in Hg as [Hr _]. rewrite lookup_insert_eq, Hr. simpl.
    f_equal. by apply (apply_update_keeps f data now).
  - by rewrite lookup_insert_ne.
Qed.

(** C4, as stated, fails: Alice files a hearing due the same day, stored
    with alert level [fatal]; the update that sets [due_date] to [null]
    leaves a reachable table whose task has no due date and is still
    [fatal]. *)
Lemma null_due_date_keeps_alert :
  reachable (run [Sample.alice_files;
                  OpUpdate "t1" Sample.clear_due_date "alice" (Sample.noon 10)])
  /\ DBTask.due_date
       <$> run [Sample.alice_files;
                OpUpdate "t1" Sample.clear_due_date "alice" (Sample.noon 10)] !! "t1"
     = Some None
  /\ DBTask.alert_level
       <$> run [Sample.alice_files;
                OpUpdate "t1" Sample.clear_due_date "alice" (Sample.noon 10)] !! "t1"
     = Some "fatal".
Proof.
  split; [| split; vm_compute; reflexivity].
  unfold run, reachable. cbn [foldl].
  apply reachable_step; [apply reachable_step; [apply reachable_empty |] |]; exact I.
Qed.

(** C4, amended: a task is created with alert level [normal] when it has
    no due date, and in every table reached without a partial update that
    sets [due_date] to [null] on a task whose alert level is not [normal],
    every task whose due date is null has alert level [normal]; no partial
    update changes [alert_level]. *)
Theorem alert_invariant_unless_due_date_stripped :
  (forall db,
     reachable_when (fun db o => strips_due_date db o = false) db ->
     alert_invariant db)
  /\ (forall db id data u now id',
       DBTask.alert_level <$> (update db id data u now).2 !! id'
       = DBTask.alert_level <$> db !! id').
Proof.
  split.
  - induction 1 as [| db o _ IH Hallowed]; intros id r' Hr'.
    { by rewrite lookup_empty in Hr'. }
    apply step_lookup_cases in Hr'
      as [Hold | [(data & u & now & -> & _ & Hc)
                 | [(data & u & now & r & -> & Hg & Ha)
                   | (u & cb & now & r & -> & Hg & ->)]]].
    + by apply (IH id).
    + destruct Hc as (_ & _ & Halert & Hdue & _). intros Hnone.
      rewrite Halert. unfold initial_alert. by rewrite <- Hdue, Hnone.
    + intros Hnone.
      rewrite (apply_update_keeps DBTask.alert_level data now r r'
                 update_keeps_alert_level Ha).
      rewrite (apply_update_due_date data now r r' Ha) in Hnone.
      simpl in Hallowed. rewrite Hg in Hallowed.
      pose proof (proj1 (get_Some db id u r) Hg) as [Hr _].
      destruct (TaskUpdate.due_date data) as [[d |] |]; simpl in *.
      * discriminate.
      * apply bool_decide_eq_false in Hallowed.
        by destruct (decide (DBTask.alert_level r = "normal")).
      * by apply (IH id r Hr).
    + pose proof (proj1 (get_Some db id u r) Hg) as [Hr _].
      pose proof (IH id r Hr) as Hok. unfold due_alert_ok in *.
      by destruct r.
  - intros. apply update_column_frame, update_keeps_alert_level.
Qed.

Lemma alert_invariant_unless_due_date_stripped_witness :
  alert_invariant (run [Sample.alice_files_undated;
                        OpUpdate "t2" Sample.downgrade "alice" (Sample.noon 11)]).
Proof.
  apply (proj1 alert_invariant_unless_due_date_stripped).
  unfold run. cbn [foldl].
  apply reachable_step; [apply reachable_step; [apply reachable_empty |] |];
    reflexivity.
Defined.

(** C5: no partial update changes the score of any task, whatever fields
    it sets, [task_type] and [priority] included: the score stored is the
    one computed at creation from the category and the priority. *)
Theorem update_never_changes_score db id data u now id' :
  DBTask.score <$> (update db id data u now).2 !! id' = DBTask.score <$> db !! id'
  /\ match (update db id data u now).1 with
     | Ok (Some r') => Some (DBTask.score r') = DBTask.score <$> db !! id
     | _ => True
     end
  /\ (forall data' u' id'',
       match (TaskService.create db data' u' now id'').1 with
       | Ok r =>
           Ok (DBTask.score r)
           = Score._calculate_score
               (TaskType_value (TaskCreate.task_type data'))
               (TaskPriority_value (TaskCreate.get_priority data'))
       | Raise => True
       end).
Proof.
  split; [| split].
  - apply update_column_frame, update_keeps_score.
  - destruct (update_cases db id data u now)
      as [[_ ->] | [(r & _ & _ & ->) | (r & r' & Hg & Ha & ->)]]; simpl; [done | done |].
    apply get_Some in Hg as [-> _]. simpl. f_equal.
    exact (apply_update_keeps DBTask.score data now r r' update_keeps_score Ha).
  - intros data' u' id''.
    destruct (create_cases db data' u' now id'') as [-> | (r & -> & _ & Hc)];
      simpl; [done |].
    destruct Hc as (_ & -> & _). by rewrite calculate_score_known.
Qed.

(** C9: in a table reached without a completion every task has
    [completed_at] and [completed_by] null; [complete_task] on a task of
    the caller sets [status] to [concluida], [completed_at] to the current
    time and [completed_by] to the completer id supplied, and to the
    caller (the owner) when none is supplied; no partial update changes
    [completed_at] or [completed_by].  A user id is a non-empty string;
    line 165 reads [completed_by or user_id], so the empty string counts
    as no completer supplied. *)
Theorem completion_columns :
  (forall db,
     reachable_when (fun _ o => is_completion o = false) db ->
     forall id r, db !! id = Some r -> not_completed r)
  /\ (forall db id u cb now r,
        get db id u = Some r ->
        exists r',
          TaskService.complete_task db id u cb now = (Some r', <[id := r']> db)
          /\ DBTask.status r' = CONCLUIDA
          /\ DBTask.completed_at r' = Some (Datetime.now_utc now)
          /\ DBTask.completed_by r'
             = Some match cb with
                    | Some c => if decide (c = "") then u else c
                    | None => u
                    end
          /\ DBTask.user_id r = u)
  /\ (forall db id data u now id',
        DBTask.completed_at <$> (update db id data u now).2 !! id'
        = DBTask.completed_at <$> db !! id'
        /\ DBTask.completed_by <$> (update db id data u now).2 !! id'
           = DBTask.completed_by <$> db !! id').
Proof.
  split; [| split].
  - induction 1 as [| db o _ IH Hallowed]; intros id r' Hr'.
    { by rewrite lookup_empty in Hr'. }
    apply step_lookup_cases in Hr'
      as [Hold | [(data & u & now & -> & _ & Hc)
                 | [(data & u & now & r & -> & Hg & Ha)
                   | (u & cb & now & r & -> & Hg & ->)]]].
    + by apply (IH id).
    + by destruct Hc as (_ & _ & _ & _ & ? & ?).
    + apply get_Some in Hg as [Hr _]. destruct (IH id r Hr) as [Hat Hby]. split.
      * by rewrite (apply_update_keeps DBTask.completed_at data now r r'
                      update_keeps_completed_at Ha).
      * by rewrite (apply_update_keeps DBTask.completed_by data now r r'
                      update_keeps_completed_by Ha).
    + discriminate Hallowed.
  - intros db id u cb now r Hg.
    destruct (complete_task_cases db id u cb now) as [[Hnone _] | (r0 & Hg0 & ->)];
      [congruence |].
    assert (r0 = r) as -> by congruence.
    eexists. split; [reflexivity |].
    apply get_Some in Hg as [_ Hu]. by destruct r.
  - intros db id data u now id'. split; apply update_column_frame.
    + apply update_keeps_completed_at.
    + apply update_keeps_completed_by.
Qed.

Lemma completion_columns_witness :
  exists r',
    TaskService.complete_task Sample.db_alice "t1" "alice" (Some "bob") (Sample.noon 11)
    = (Some r', <[ "t1" := r' ]> Sample.db_alice)
    /\ DBTask.status r' = CONCLUIDA
    /\ DBTask.completed_at r' = Some (Datetime.now_utc (Sample.noon 11))
    /\ DBTask.completed_by r' = Some "bob".
Proof.
  destruct completion_columns as (_ & Hcomplete & _).
  edestruct (Hcomplete Sample.db_alice "t1" "alice" (Some "bob") (Sample.noon 11))
    as (r' & Hrun & Hstatus & Hat & Hby & _).
  { vm_compute. reflexivity. }
  exists r'. repeat split; assumption.
Defined.

(** The caller's rows after an update, a deletion or a completion are
    determined by the caller's rows before it. *)
Lemma owned_insert u id (r : DBTask.t) (db : store) :
  DBTask.user_id r = u -> owned u (<[id := r]> db) = <[id := r]> (owned u db).
Proof. intros Hu. unfold owned. by rewrite map_filter_insert_True. Qed.

Lemma owned_delete u id (db : store) :
  owned u (base.delete id db) = base.delete id (owned u db).
Proof. unfold owned. by rewrite map_filter_delete. Qed.

Lemma get_agree (db1 db2 : store) u id :
  owned u db1 = owned u db2 -> get db1 id u = get db2 id u.
Proof. intros Heq. by rewrite !get_owned, Heq. Qed.

(** C10: an operation that addresses by id a task of another user returns
    [None] ([False] for [delete]) and leaves the table as it was; and on
    two tables with the same tasks of user [u], [get], [update], [delete]
    and [complete_task] called by [u] return the same results and leave
    the same tasks of [u]. *)
Theorem owner_isolation (u : string) :
  (forall db id r,
     db !! id = Some r -> DBTask.user_id r ≠ u ->
     get db id u = None
     /\ (forall data now, update db id data u now = (Ok None, db))
     /\ delete db id u = (Ok false, db)
     /\ (forall cb now, TaskService.complete_task db id u cb now = (None, db)))
  /\ (forall db1 db2 id,
        owned u db1 = owned u db2 ->
        get db1 id u = get db2 id u
        /\ (forall data now,
              (update db1 id data u now).1 = (update db2 id data u now).1
              /\ owned u (update db1 id data u now).2
                 = owned u (update db2 id data u now).2)
        /\ (delete db1 id u).1 = (delete db2 id u).1
        /\ owned u (delete db1 id u).2 = owned u (delete db2 id u).2
        /\ (forall cb now,
              (TaskService.complete_task db1 id u cb now).1
              = (TaskService.complete_task db2 id u cb now).1
              /\ owned u (TaskService.complete_task db1 id u cb now).2
                 = owned u (TaskService.complete_task db2 id u cb now).2)).
Proof.
  split.
  - intros db id r Hr Hu. pose proof (get_other db id u r Hr Hu) as Hg.
    split; [done |]. unfold update, delete, TaskService.complete_task.
    by rewrite Hg.
  - intros db1 db2 id Heq. pose proof (get_agree db1 db2 u id Heq) as Hg.
    split; [done |]. unfold update, delete, TaskService.complete_task.
    rewrite Hg. destruct (get db2 id u) as [r |] eqn:E; [| done].
    apply get_Some in E as [_ Hu].
    repeat split; simpl; try done.
    + by destruct (apply_update data now r).
    + destruct (apply_update data now r) as [r' |] eqn:Ha; simpl; [| done].
      rewrite !owned_insert, Heq; [done | |];
        by rewrite (apply_update_keeps DBTask.user_id data now r r'
                      update_keeps_user_id Ha).
    + by rewrite !owned_delete, Heq.
    + rewrite !owned_insert, Heq; [done | |]; by destruct r.
Qed.

Lemma owner_isolation_witness :
  get Sample.db_alice_bob "t3" "alice" = None
  /\ delete Sample.db_alice_bob "t3" "alice" = (Ok false, Sample.db_alice_bob)
  /\ get Sample.db_alice "t1" "alice" = get Sample.db_alice_bob "t1" "alice"
  /\ (delete Sample.db_alice "t1" "alice").1
     = (delete Sample.db_alice_bob "t1" "alice").1.
Proof.
  destruct (owner_isolation "alice") as [Hother Hsame].
  edestruct (Hother Sample.db_alice_bob "t3") as (Hget & _ & Hdel & _).
  { vm_compute. reflexivity. }
  { vm_compute. discriminate. }
  destruct (Hsame Sample.db_alice Sample.db_alice_bob "t1") as (Hget' & _ & Hdel' & _).
  { vm_compute. reflexivity. }
  repeat split; assumption.
Defined.

End TaskClaims.

(** ** Ranking and own score *)

Module RankingFacts.
Import Ranking.

#[local] Instance by_total_desc_total : Total by_total_desc.
Proof. intros a b. unfold by_total_desc. lia. Qed.

#[local] Instance by_total_desc_trans : Transitive by_total_desc.
Proof. intros a b c. unfold by_total_desc. lia. Qed.


Lemma assign_ranks_user_id n l : user_id <$> assign_ranks n l = l.*1.
Proof.
  revert n. induction l as [| [k g] l IH]; intros n; simpl; [done |].
  by rewrite IH.
Qed.




(** A group exists only for an assignee with a task in the list. *)
Lemma aggregate_key tasks key g :
  aggregate tasks !! key = Some g ->
  exists task, task ∈ tasks /\ DBTask.completed_by task = key.
Proof.
  revert g. induction tasks as [| t tasks IH]; intros g; simpl.
  { by rewrite lookup_empty. }
  unfold add_task at 1.
  destruct (decide (DBTask.completed_by t = key)) as [<- | Hne].
  - intros _. exists t. split; [apply elem_of_cons; by left | done].
  - rewrite lookup_insert_ne by done. intros Hg.
    destruct (IH g Hg) as (task & Hin & Hk).
    exists task. split; [apply elem_of_cons; by right | done].
Qed.


(** What the own-score lookup takes from a ranking: the user's entry,
    the first one, when the ranking has one; otherwise the placeholder
    with [total_score] 0, [tasks_completed] 0, an empty breakdown and rank
    [len(ranking) + 1]. *)
Lemma my_score_entry_or_placeholder (ranking : list entry) (u : string) :
  (Exists (fun e => Ranking.user_id e = Some u) ranking ->
   Endpoints.my_score ranking u ∈ ranking
   /\ Ranking.user_id (Endpoints.my_score ranking u) = Some u
   /\ exists before after,
        ranking = before ++ Endpoints.my_score ranking u :: after
        /\ Forall (fun e => Ranking.user_id e ≠ Some u) before)
  /\ (Forall (fun e => Ranking.user_id e ≠ Some u) ranking ->
      Endpoints.my_score ranking u
      = {| Ranking.user_id := Some u;
           total_score := 0;
           tasks_completed := 0;
           tasks_by_type := ∅;
           rank := Z.of_nat (length ranking) + 1 |}).
Proof.
  split.
  - intros Hex. unfold Endpoints.my_score.
    destruct (head (filter (fun e => Ranking.user_id e = Some u) ranking))
      as [e |] eqn:Hhead; simpl.
    + pose proof (head_Some_elem_of _ _ Hhead) as Hin.
      apply list_elem_of_filter in Hin as [Hu Hin].
      apply head_filter_Some in Hhead as (before & after & -> & Hbefore).
      repeat split; [done | done |]. by exists before, after.
    + apply head_None in Hhead. apply Exists_exists in Hex as (e & Hin & Hu).
      assert (He : e ∈ filter (fun e => Ranking.user_id e = Some u) ranking)
        by by apply list_elem_of_filter.
      rewrite Hhead in He. by apply elem_of_nil in He.
  - intros Hall. unfold Endpoints.my_score.
    destruct (head (filter (fun e => Ranking.user_id e = Some u) ranking))
      as [e |] eqn:Hhead; simpl; [| done].
    apply head_Some_elem_of, list_elem_of_filter in Hhead as [Hu Hin].
    rewrite Forall_forall in Hall. by destruct (Hall e Hin).
Qed.

(** In the ranking of the aggregator, an assignee with no counted task has
    no entry. *)
Lemma ranking_omits_idle_assignee tasks owner start_date end_date assignee :
  Forall (fun task => counted owner start_date end_date task = true ->
                      DBTask.completed_by task ≠ assignee) tasks ->
  Forall (fun e => Ranking.user_id e ≠ assignee)
    (get_taskscore_ranking tasks owner start_date end_date).
Proof.
  intros Hnone.
  apply Forall_forall. intros e He Hu.
  assert (Hk : assignee ∈ Ranking.user_id <$> get_taskscore_ranking tasks owner
                                                 start_date end_date).
  { rewrite <- Hu. by apply list_elem_of_fmap_2. }
  unfold get_taskscore_ranking in Hk.
  rewrite assign_ranks_user_id, merge_sort_Permutation in Hk.
  apply list_elem_of_fmap in Hk as ([k g] & -> & Hkg).
  apply elem_of_map_to_list, aggregate_key in Hkg as (task & Hin & Hby).
  apply list_elem_of_filter in Hin as [Hcounted Hin].
  rewrite Forall_forall in Hnone. by apply (Hnone task Hin Hcounted).
Qed.

(** C8: the own-score lookup answers every request with HTTP 500, where
    the claim has it return the user's entry or the placeholder.  The
    [try] block reads [task_service.get_taskscore_ranking], a method the
    service does not have, and [current_user.id], while [current_user] is
    the dictionary of [get_current_user], which has the key [user_id] and
    no attribute [id]; either read raises, whatever the other gives, and
    the handler answers the exception with HTTP 500.  With a service
    method that returns a ranking and a user object that has an [id], the
    same block returns what the claim describes: the user's entry of the
    ranking when there is one, else the zero-valued placeholder of rank
    [len(ranking) + 1]. *)
Theorem get_my_taskscore_answers_500 :
  (forall uid email email_verified start_date end_date,
     Endpoints.get_my_taskscore
       (Endpoints.get_current_user uid email email_verified) start_date end_date
     = Endpoints.HTTPException 500)
  /\ (forall current_user start_date end_date,
        Endpoints.get_my_taskscore current_user start_date end_date
        = Endpoints.HTTPException 500)
  /\ (forall method uid email email_verified start_date end_date,
        Endpoints.try_block method
          (Endpoints.get_current_user uid email email_verified) start_date end_date
        = Raise)
  /\ (forall method attributes uid start_date end_date ranking,
        attributes !! "id" = Some uid ->
        method uid start_date end_date = Ok ranking ->
        Endpoints.try_block (Ok method) (Endpoints.PyInstance attributes)
          start_date end_date
        = Ok (Endpoints.my_score ranking uid)
        /\ (Exists (fun e => Ranking.user_id e = Some uid) ranking ->
            Endpoints.my_score ranking uid ∈ ranking
            /\ Ranking.user_id (Endpoints.my_score ranking uid) = Some uid)
        /\ (Forall (fun e => Ranking.user_id e ≠ Some uid) ranking ->
            Endpoints.my_score ranking uid
            = {| Ranking.user_id := Some uid;
                 total_score := 0;
                 tasks_completed := 0;
                 tasks_by_type := ∅;
                 rank := Z.of_nat (length ranking) + 1 |})).
Proof.
  split; [| split; [| split]].
  - reflexivity.
  - reflexivity.
  - intros method uid email email_verified start_date end_date.
    by destruct method.
  - intros method attributes uid start_date end_date ranking Hid Hranking.
    split.
    + unfold Endpoints.try_block. simpl. rewrite Hid. simpl.
      by rewrite Hranking.
    + destruct (my_score_entry_or_placeholder ranking uid) as [Hpresent Habsent].
      split; [| exact Habsent].
      intros Hex. by destruct (Hpresent Hex) as (? & ? & _).
Qed.

Lemma get_my_taskscore_answers_500_witness :
  Endpoints.get_my_taskscore (Endpoints.get_current_user "alice" None true) None None
  = Endpoints.HTTPException 500
  /\ Endpoints.try_block (Ok (fun _ _ _ => Ok []))
       (Endpoints.PyInstance {[ "id" := "carol" ]}) None None
     = Ok {| Ranking.user_id := Some "carol";
             total_score := 0;
             tasks_completed := 0;
             tasks_by_type := ∅;
             rank := 1 |}.
Proof.
  destruct get_my_taskscore_answers_500 as (Hreal & _ & _ & Hrepaired).
  split; [apply Hreal |].
  destruct (Hrepaired (fun _ _ _ => Ok []) {[ "id" := "carol" ]} "carol" None None [])
    as (Hblock & _ & Habsent); [reflexivity | reflexivity |].
  rewrite Hblock, Habsent; [reflexivity | constructor].
Defined.

End RankingFacts.

(** * Further properties *)

(** ** Creating, updating and deleting *)

Module StoreProps.
Import BaseSQLService Inv StoreFacts.

Lemma update_keeps_created_at : update_keeps DBTask.created_at.
Proof. repeat split; intros ? []; reflexivity. Qed.



(** X2: [delete] of a task the caller owns removes that row and no other;
    afterwards no user reads it, [exists] is false, and a second [delete]
    returns [False] and changes nothing. *)
Theorem delete_removes_once db id u r :
  get db id u = Some r ->
  exists db',
    delete db id u = (Ok true, db')
    /\ db' !! id = None
    /\ (forall id', id' ≠ id -> db' !! id' = db !! id')
    /\ (forall v, get db' id v = None /\ Queries.exists_ db' id v = false)
    /\ delete db' id u = (Ok false, db').
Proof.
  intros Hg. exists (base.delete id db).
  assert (Hgone : forall v, get (base.delete id db) id v = None).
  { intros v. unfold get. by rewrite lookup_delete_eq. }
  unfold delete at 1. rewrite Hg. repeat split.
  - apply lookup_delete_eq.
  - intros id' Hne. by apply lookup_delete_ne.
  - apply Hgone.
  - unfold Queries.exists_. by rewrite lookup_delete_eq.
  - unfold delete. by rewrite Hgone.
Qed.

Lemma delete_removes_once_witness :
  exists db',
    delete Sample.db_alice_bob "t1" "alice" = (Ok true, db')
    /\ db' !! "t1" = None
    /\ delete db' "t1" "alice" = (Ok false, db').
Proof.
  edestruct (delete_removes_once Sample.db_alice_bob "t1" "alice")
    as (db' & Hdel & Hnone & _ & _ & Hagain).
  { vm_compute. reflexivity. }
  by exists db'.
Defined.

(** X3: [update] never adds or removes a row and never touches a row
    other than the one addressed; when it returns a task, that task is the
    row now stored and what [get] returns; when it returns [None] or
    raises, the table is unchanged. *)
Theorem update_writes_one_row db id data u now :
  dom (update db id data u now).2 = dom db
  /\ (forall id', id' ≠ id -> (update db id data u now).2 !! id' = db !! id')
  /\ match (update db id data u now).1 with
     | Ok (Some r') =>
         (update db id data u now).2 !! id = Some r'
         /\ get (update db id data u now).2 id u = Some r'
         /\ DBTask.updated_at r' = Datetime.utcnow now
     | Ok None => get db id u = None /\ (update db id data u now).2 = db
     | Raise => (update db id data u now).2 = db
     end.
Proof.
  destruct (update_cases db id data u now)
    as [[Hg ->] | [(r & _ & _ & ->) | (r & r' & Hg & Ha & ->)]]; simpl;
    [done | done |].
  pose proof (apply_update_keeps DBTask.user_id data now r r' update_keeps_user_id Ha)
    as Hu.
  apply get_Some in Hg as [Hr Hown].
  repeat split.
  - rewrite dom_insert_L. apply (elem_of_dom_2 (D := gset string)) in Hr. set_solver.
  - intros id' Hne. by rewrite lookup_insert_ne.
  - apply lookup_insert_eq.
  - apply get_Some. rewrite lookup_insert_eq. split; congruence.
  - revert Ha. unfold apply_update.
    match goal with |- mbind _ ?o = _ -> _ => destruct o as [r0 |] end;
      simpl; [| discriminate].
    intros [= <-]. by destruct r0.
Qed.

(** X4: no operation changes the owner, the score, the alert level or the
    creation time of a task that is stored before and after it. *)
Theorem step_keeps_owner_score_alert db o id r r' :
  db !! id = Some r -> step db o !! id = Some r' ->
  DBTask.user_id r' = DBTask.user_id r
  /\ DBTask.score r' = DBTask.score r
  /\ DBTask.alert_level r' = DBTask.alert_level r
  /\ DBTask.created_at r' = DBTask.created_at r.
Proof.
  intros Hr Hr'.
  apply step_lookup_cases in Hr'
    as [Hold | [(data & u & now & -> & Hnone & _)
               | [(data & u & now & r0 & -> & Hg & Ha)
                 | (u & cb & now & r0 & -> & Hg & ->)]]].
  - by assert (r' = r) as -> by congruence.
  - congruence.
  - apply get_Some in Hg as [Hr0 _]. assert (r0 = r) as -> by congruence.
    repeat split.
    + exact (apply_update_keeps _ data now r r' update_keeps_user_id Ha).
    + exact (apply_update_keeps _ data now r r' update_keeps_score Ha).
    + exact (apply_update_keeps _ data now r r' update_keeps_alert_level Ha).
    + exact (apply_update_keeps _ data now r r' update_keeps_created_at Ha).
  - apply get_Some in Hg as [Hr0 _]. assert (r0 = r) as -> by congruence.
    by destruct r.
Qed.

Lemma step_keeps_owner_score_alert_witness :
  DBTask.score <$> step Sample.db_alice
                     (OpUpdate "t1" Sample.downgrade "alice" (Sample.noon 11)) !! "t1"
  = Some 150.
Proof.
  destruct (step Sample.db_alice
              (OpUpdate "t1" Sample.downgrade "alice" (Sample.noon 11)) !! "t1")
    as [r' |] eqn:Hr'; [| vm_compute in Hr'; discriminate].
  edestruct (step_keeps_owner_score_alert Sample.db_alice
               (OpUpdate "t1" Sample.downgrade "alice" (Sample.noon 11)) "t1")
    as (_ & Hscore & _); [vm_compute; reflexivity | exact Hr' |].
  simpl. f_equal. rewrite Hscore. reflexivity.
Defined.

Lemma exact_floor_bounds t p : 16 <= Score.exact_floor t p <= 150.
Proof. destruct t, p; vm_compute; split; discriminate. Qed.

Lemma level_of_diff_days_known d :
  Alert.level_of_diff_days d ∈ Scale.alert_levels.
Proof.
  unfold Alert.level_of_diff_days, Scale.alert_levels.
  repeat case_decide; set_solver.
Qed.

(** X5: in every table a history can reach, every task has a score
    between 16 and 150, one of the six alert levels, and [completed_at]
    set exactly when [completed_by] is. *)
Theorem reachable_rows_well_formed db id r :
  reachable db -> db !! id = Some r ->
  16 <= DBTask.score r <= 150
  /\ DBTask.alert_level r ∈ Scale.alert_levels
  /\ (DBTask.completed_at r = None <-> DBTask.completed_by r = None).
Proof.
  intros Hreach. revert id r.
  induction Hreach as [| db o _ IH _]; intros id r' Hr'.
  { by rewrite lookup_empty in Hr'. }
  apply step_lookup_cases in Hr'
    as [Hold | [(data & u & now & -> & _ & Hc)
               | [(data & u & now & r & -> & Hg & Ha)
                 | (u & cb & now & r & -> & Hg & ->)]]].
  - by apply (IH id).
  - destruct Hc as (_ & -> & -> & _ & -> & ->).
    split; [apply exact_floor_bounds |]. split; [| done].
    unfold initial_alert. destruct (TaskCreate.get_due_date data).
    + apply level_of_diff_days_known.
    + unfold Scale.alert_levels. set_solver.
  - apply get_Some in Hg as [Hr _]. destruct (IH id r Hr) as (Hs & Hl & Hc).
    rewrite (apply_update_keeps _ data now r r' update_keeps_score Ha).
    rewrite (apply_update_keeps _ data now r r' update_keeps_alert_level Ha).
    rewrite (apply_update_keeps _ data now r r' update_keeps_completed_at Ha).
    rewrite (apply_update_keeps _ data now r r' update_keeps_completed_by Ha).
    done.
  - apply get_Some in Hg as [Hr _]. destruct (IH id r Hr) as (Hs & Hl & _).
    destruct r; simpl in *. done.
Qed.

Lemma reachable_rows_well_formed_witness :
  exists r, Sample.office !! "t1" = Some r
       /\ 16 <= DBTask.score r <= 150
       /\ DBTask.alert_level r ∈ Scale.alert_levels.
Proof.
  destruct (Sample.office !! "t1") as [r |] eqn:Hr; [| vm_compute in Hr; discriminate].
  exists r. split; [reflexivity |].
  destruct (reachable_rows_well_formed Sample.office "t1" r) as (Hs & Hl & _);
    [| exact Hr | by split].
  unfold Sample.office, run, reachable. cbn [foldl].
  repeat (apply reachable_step; [| exact I]). apply reachable_empty.
Defined.

(** *** The fields a partial update writes *)













End StoreProps.

(** ** Listing and counting *)

Module QueryProps.
Import BaseSQLService Inv StoreFacts Queries QueryAux.

Lemma select_rows_elem db u filters id r :
  (id, r) ∈ select_rows db u filters
  <-> db !! id = Some r /\ DBTask.user_id r = u /\ filters_hold filters (id, r) = true.
Proof.
  unfold select_rows. rewrite list_elem_of_filter, elem_of_map_to_list. simpl.
  tauto.
Qed.

Lemma order_rows_perm (le : relation (string * DBTask.t))
    `{!forall x y, Decision (le x y)} descending rows :
  order_rows le descending rows ≡ₚ rows.
Proof. unfold order_rows. destruct descending; apply merge_sort_Permutation. Qed.

Lemma limit_offset_Ok {A : Type} limit offset (rows rows' : list A) :
  limit_offset limit offset rows = Ok rows' ->
  0 <= limit /\ 0 <= offset
  /\ rows' `sublist_of` rows
  /\ Z.of_nat (length rows') = Z.min limit (Z.max 0 (Z.of_nat (length rows) - offset)).
Proof.
  unfold limit_offset. case_decide as Hneg; [discriminate |]. intros [= <-].
  split; [lia |]. split; [lia |]. split.
  - etrans; [apply sublist_take | apply sublist_drop].
  - rewrite length_take, length_drop. lia.
Qed.

Lemma limit_offset_Raise {A : Type} limit offset (rows : list A) :
  limit < 0 \/ offset < 0 -> limit_offset limit offset rows = Raise.
Proof. intros Hneg. unfold limit_offset. by rewrite decide_True. Qed.

Section Generic.
Variable column_le : string -> relation (string * DBTask.t).
Context `{column_le_dec : !forall c x y, Decision (column_le c x y)}.

(** The rows [list] pages through: the selected rows, in some order. *)
Lemma list_inv db u limit offset filters order_by descending rows :
  list_ column_le db u limit offset filters order_by descending = Ok rows ->
  exists ordered page,
    ordered ≡ₚ select_rows db u filters
    /\ limit_offset limit offset ordered = Ok page
    /\ rows = page.*2.
Proof.
  unfold list_.
  set (ordered := if _ && _ then _ else _).
  assert (Hperm : ordered ≡ₚ select_rows db u filters).
  { subst ordered. destruct (_ && _); [apply order_rows_perm | done]. }
  destruct (limit_offset limit offset ordered) as [page |] eqn:Hpage; simpl;
    [| discriminate].
  intros [= <-]. by exists ordered, page.
Qed.

(** X6: every task [list] returns is a row of the table that belongs to
    the caller and passes every filter, and there are at most [limit] of
    them; a negative [limit] or [offset] makes [list] raise. *)
Theorem list_returns_own_filtered_rows db u limit offset filters order_by descending :
  (forall rows,
     list_ column_le db u limit offset filters order_by descending = Ok rows ->
     0 <= limit /\ 0 <= offset
     /\ Z.of_nat (length rows) <= limit
     /\ Forall (fun r => exists id, db !! id = Some r
                                  /\ DBTask.user_id r = u
                                  /\ filters_hold filters (id, r) = true) rows)
  /\ (limit < 0 \/ offset < 0 ->
      list_ column_le db u limit offset filters order_by descending = Raise).
Proof.
  split.
  - intros rows Hlist.
    apply list_inv in Hlist as (ordered & page & Hperm & Hpage & ->).
    apply limit_offset_Ok in Hpage as (Hl & Ho & Hsub & Hlen).
    split; [done |]. split; [done |]. split.
    { rewrite length_fmap. lia. }
    apply Forall_forall. intros r Hr.
    apply list_elem_of_fmap in Hr as ([id r0] & -> & Hin).
    exists id. apply select_rows_elem. rewrite <- Hperm.
    by apply (elem_of_sublist page).
  - intros Hneg. unfold list_. rewrite limit_offset_Raise by done. reflexivity.
Qed.

(** X7: [list] returns [min(limit, max(0, count - offset))] tasks, [count]
    being what [BaseSQLService.count] answers for the same user and
    filters; from offset 0 with a limit of at least [count] it returns
    every selected task, each once. *)
Theorem list_length_is_count db u limit offset filters order_by descending rows :
  list_ column_le db u limit offset filters order_by descending = Ok rows ->
  Z.of_nat (length rows) = Z.min limit (Z.max 0 (count db u filters - offset))
  /\ (offset = 0 -> count db u filters <= limit ->
      rows ≡ₚ (select_rows db u filters).*2).
Proof.
  intros Hlist.
  apply list_inv in Hlist as (ordered & page & Hperm & Hpage & ->).
  pose proof (limit_offset_Ok _ _ _ _ Hpage) as (Hl & Ho & _ & Hlen).
  unfold count. rewrite <- Hperm. split.
  - by rewrite length_fmap.
  - intros -> Hall. unfold limit_offset in Hpage.
    case_decide; [discriminate |]. injection Hpage as <-.
    change (Z.to_nat 0) with 0%nat. rewrite drop_0, take_ge by lia.
    by rewrite Hperm.
Qed.

End Generic.

Lemma list_returns_own_filtered_rows_witness :
  (exists rows,
     list_ QuerySample.by_due_date Sample.office "alice" 2 0 None "created_at" true
     = Ok rows
     /\ Z.of_nat (length rows) <= 2
     /\ Forall (fun r => DBTask.user_id r = "alice") rows)
  /\ list_ QuerySample.by_due_date Sample.office "alice" 2 (-1) None "created_at" true
     = Raise.
Proof.
  destruct (list_returns_own_filtered_rows QuerySample.by_due_date Sample.office
              "alice" 2 0 None "created_at" true) as [Hok _].
  destruct (list_returns_own_filtered_rows QuerySample.by_due_date Sample.office
              "alice" 2 (-1) None "created_at" true) as [_ Hraise].
  split; [| apply Hraise; lia].
  destruct (list_ QuerySample.by_due_date Sample.office "alice" 2 0 None
              "created_at" true) as [rows |] eqn:Hrows;
    [| vm_compute in Hrows; discriminate].
  exists rows. destruct (Hok rows eq_refl) as (_ & _ & Hlen & Hall).
  split; [reflexivity |]. split; [exact Hlen |].
  eapply Forall_impl; [exact Hall |]. by intros r (id & _ & Hu & _).
Defined.

Lemma list_length_is_count_witness :
  exists rows,
    list_ QuerySample.by_due_date Sample.office "alice" 10 1 None "created_at" true
    = Ok rows
    /\ Z.of_nat (length rows) = 2.
Proof.
  destruct (list_ QuerySample.by_due_date Sample.office "alice" 10 1 None
              "created_at" true) as [rows |] eqn:Hrows;
    [| vm_compute in Hrows; discriminate].
  exists rows. split; [reflexivity |].
  destruct (list_length_is_count QuerySample.by_due_date Sample.office "alice" 10 1
              None "created_at" true rows Hrows) as [Hlen _].
  rewrite Hlen. reflexivity.
Defined.

Lemma TaskStatus_value_inj s1 s2 : TaskStatus_value s1 = TaskStatus_value s2 -> s1 = s2.
Proof. by destruct s1, s2. Qed.

(** X8: [list_by_status] returns only tasks of the caller that have the
    status asked for, and [list_by_case] only tasks of the caller that
    belong to the case asked for; each returns at most [limit] tasks. *)
Theorem list_by_status_and_case_filter
    (column_le : string -> relation (string * DBTask.t))
    `{!forall c x y, Decision (column_le c x y)} db u :
  (forall status limit offset rows,
     list_by_status column_le db u status limit offset = Ok rows ->
     Z.of_nat (length rows) <= limit
     /\ Forall (fun r => DBTask.user_id r = u /\ DBTask.status r = status) rows)
  /\ (forall case_id limit rows,
        list_by_case column_le db case_id u limit = Ok rows ->
        Z.of_nat (length rows) <= limit
        /\ Forall (fun r => DBTask.user_id r = u /\ DBTask.case_id r = Some case_id) rows).
Proof.
  split.
  - intros status limit offset rows Hlist. unfold list_by_status in Hlist.
    apply list_inv in Hlist as (ordered & page & Hperm & Hpage & ->).
    apply limit_offset_Ok in Hpage as (_ & _ & Hsub & Hlen).
    split; [rewrite length_fmap; lia |].
    apply Forall_forall. intros r Hr.
    apply list_elem_of_fmap in Hr as ([id r0] & -> & Hin).
    apply (elem_of_sublist _ _ _ Hin) in Hsub. rewrite Hperm in Hsub.
    apply select_rows_elem in Hsub as (_ & Hu & Hf). split; [done |].
    unfold filters_hold, filter_holds in Hf. simpl in Hf.
    rewrite andb_true_r in Hf. apply bool_decide_eq_true in Hf.
    by apply TaskStatus_value_inj.
  - intros case_id limit rows Hlist. unfold list_by_case in Hlist.
    apply list_inv in Hlist as (ordered & page & Hperm & Hpage & ->).
    apply limit_offset_Ok in Hpage as (_ & _ & Hsub & Hlen).
    split; [rewrite length_fmap; lia |].
    apply Forall_forall. intros r Hr.
    apply list_elem_of_fmap in Hr as ([id r0] & -> & Hin).
    apply (elem_of_sublist _ _ _ Hin) in Hsub. rewrite Hperm in Hsub.
    apply select_rows_elem in Hsub as (_ & Hu & Hf). split; [done |].
    unfold filters_hold, filter_holds in Hf. simpl in Hf.
    rewrite andb_true_r in Hf. simpl.
    destruct (DBTask.case_id r0) as [c |]; simpl in Hf; [| discriminate].
    apply bool_decide_eq_true in Hf. by subst.
Qed.

Lemma list_by_status_and_case_filter_witness :
  exists rows,
    list_by_status QuerySample.by_due_date Sample.office "alice" CONCLUIDA 10 0 = Ok rows
    /\ Forall (fun r => DBTask.user_id r = "alice" /\ DBTask.status r = CONCLUIDA) rows.
Proof.
  destruct (list_by_status QuerySample.by_due_date Sample.office "alice" CONCLUIDA 10 0)
    as [rows |] eqn:Hrows; [| vm_compute in Hrows; discriminate].
  exists rows. split; [reflexivity |].
  destruct (list_by_status_and_case_filter QuerySample.by_due_date Sample.office "alice")
    as [Hstatus _].
  by destruct (Hstatus CONCLUIDA 10 0 rows Hrows).
Defined.

(** *** Rows before and after a write *)

Lemma rows_insert (db : store) id r' :
  map_to_list (<[id := r']> db) ≡ₚ (id, r') :: map_to_list (base.delete id db).
Proof.
  rewrite <- insert_delete_eq. apply map_to_list_insert, lookup_delete_eq.
Qed.

Lemma rows_lookup (db : store) id r :
  db !! id = Some r -> map_to_list db ≡ₚ (id, r) :: map_to_list (base.delete id db).
Proof. intros Hr. symmetry. by apply map_to_list_delete. Qed.

Lemma tally_insert P `{!forall row, Decision (P row)} (db : store) id r' :
  tally P (<[id := r']> db) = one_if (P (id, r')) + tally P (base.delete id db).
Proof.
  unfold tally, one_if. rewrite rows_insert, filter_cons.
  case_decide; simpl; lia.
Qed.

Lemma tally_lookup P `{!forall row, Decision (P row)} (db : store) id r :
  db !! id = Some r ->
  tally P db = one_if (P (id, r)) + tally P (base.delete id db).
Proof.
  intros Hr. unfold tally, one_if. rewrite (rows_lookup db id r Hr), filter_cons.
  case_decide; simpl; lia.
Qed.

Lemma tally_fresh P `{!forall row, Decision (P row)} (db : store) id r' :
  db !! id = None -> tally P (<[id := r']> db) = one_if (P (id, r')) + tally P db.
Proof. intros Hnone. rewrite tally_insert. by rewrite delete_id. Qed.

(** Overwriting a row by one with the same standing in [P] keeps the
    tally. *)
Lemma tally_overwrite P `{!forall row, Decision (P row)} (db : store) id r r' :
  db !! id = Some r -> (P (id, r') <-> P (id, r)) ->
  tally P (<[id := r']> db) = tally P db.
Proof.
  intros Hr Hiff. rewrite tally_insert, (tally_lookup P db id r Hr).
  unfold one_if. by destruct (decide (P (id, r'))), (decide (P (id, r))); try tauto.
Qed.

Lemma count_tally db u :
  count db u None
  = tally (fun row => DBTask.user_id row.2 = u /\ filters_hold None row = true) db.
Proof. reflexivity. Qed.

Lemma create_dichotomy db data u now id :
  (only_columns data /\ db !! id = None
   /\ exists r, TaskService.create db data u now id = (Ok r, <[id := r]> db)
           /\ created data u now r)
  \/ (~ (only_columns data /\ db !! id = None)
      /\ TaskService.create db data u now id = (Raise, db)).
Proof.
  destruct (decide (only_columns data /\ db !! id = None)) as [[Hcols Hid] | Hnot].
  { left. split; [done |]. split; [done |]. by apply create_returns. }
  right. split; [done |].
  rewrite create_prepared. unfold create.
  case_decide as Hset; [done |].
  case_decide as Hwide; [done |].
  destruct (db !! id) eqn:Hid; [done |].
  exfalso. apply Hnot. split; [| done].
  unfold only_columns.
  destruct (TaskCreate.assigned_to data), (TaskCreate.location data),
    (TaskCreate.process_number data); try done;
    exfalso; apply Hset; eauto.
Qed.

(** X9: the number [count] answers for a user, with no filter, grows by
    one with each task that user creates, drops by one with each task that
    user deletes, and is left alone by every other operation, of that user
    or of another. *)
Theorem count_follows_create_and_delete db o u :
  count (step db o) u None
  = count db u None
    + match o with
      | OpCreate data v _ id =>
          if decide (v = u /\ only_columns data /\ db !! id = None) then 1 else 0
      | OpDelete id v =>
          if decide (v = u /\ is_Some (get db id u)) then -1 else 0
      | _ => 0
      end.
Proof.
  rewrite !count_tally.
  set (P := fun row : string * DBTask.t =>
              DBTask.user_id row.2 = u /\ filters_hold None row = true).
  destruct o as [data v now id | id data v now | id v | id v cb now]; simpl.
  - destruct (create_dichotomy db data v now id)
      as [(Hcols & Hfresh & r & -> & Hc) | [Hnot ->]]; simpl.
    + rewrite (tally_fresh P db id r Hfresh). destruct Hc as (Hu & _).
      unfold one_if, P. simpl. rewrite Hu.
      destruct (decide (v = u)) as [-> | Hne].
      * rewrite decide_True by done. rewrite decide_True by done. lia.
      * rewrite decide_False by tauto. rewrite decide_False by tauto. lia.
    + rewrite decide_False by tauto. lia.
  - destruct (update_cases db id data v now)
      as [[_ ->] | [(r & _ & _ & ->) | (r & r' & Hg & Ha & ->)]]; simpl; [lia | lia |].
    apply get_Some in Hg as [Hr _].
    rewrite (tally_overwrite P db id r r' Hr); [lia |].
    unfold P. simpl.
    by rewrite (apply_update_keeps _ data now r r' update_keeps_user_id Ha).
  - unfold delete. destruct (get db id v) as [r |] eqn:Hg; simpl.
    + apply get_Some in Hg as [Hr Hv].
      rewrite (tally_lookup P db id r Hr). unfold one_if, P. simpl. rewrite Hv.
      destruct (decide (v = u)) as [-> | Hne].
      * rewrite decide_True by done.
        rewrite decide_True; [lia |]. split; [done |].
        exists r. by apply get_Some.
      * rewrite decide_False by tauto. rewrite decide_False by tauto. lia.
    + destruct (decide (v = u)) as [-> | Hne].
      * rewrite decide_False; [lia |]. rewrite Hg. by intros [_ [? [=]]].
      * rewrite decide_False by tauto. lia.
  - destruct (complete_task_cases db id v cb now) as [[_ ->] | (r & Hg & ->)];
      simpl; [lia |].
    apply get_Some in Hg as [Hr _].
    rewrite (tally_overwrite P db id r _ Hr); [lia |].
    unfold P. simpl. by destruct r.
Qed.

(** *** Overdue tasks *)

#[local] Instance due_date_le_total : Total due_date_le.
Proof.
  intros a b. unfold due_date_le.
  destruct (DBTask.due_date a.2), (DBTask.due_date b.2); try tauto. lia.
Qed.

#[local] Instance due_date_le_trans : Transitive due_date_le.
Proof.
  intros a b c. unfold due_date_le.
  destruct (DBTask.due_date a.2), (DBTask.due_date b.2), (DBTask.due_date c.2);
    try tauto. lia.
Qed.

(** The query and the classifier agree on what is overdue. *)
Lemma overdue_iff_classified now d :
  Datetime.instant_utc d < now <-> Alert._get_alert_level now d = Ok "overdue".
Proof.
  rewrite AlertFacts.get_alert_level_days.
  unfold Alert.level_of_diff_days, Alert.diff_days, Datetime.us_per_day,
    Datetime.us_per_second.
  set (x := Datetime.instant_utc d - now).
  split.
  - intros Hlt. rewrite decide_True; [done |].
    apply Z.div_lt_upper_bound; lia.
  - intros Hlevel. case_decide as Hneg.
    + destruct (decide (0 <= x)) as [Hpos |]; [| lia].
      pose proof (Z.div_pos x (86400 * 1000000) Hpos). lia.
    + repeat case_decide; by inversion Hlevel.
Qed.

Lemma is_overdue_true u now id r :
  is_overdue u now (id, r) = true
  <-> DBTask.user_id r = u /\ DBTask.status r ≠ CONCLUIDA /\ DBTask.status r ≠ CANCELADA
      /\ exists d, DBTask.due_date r = Some d /\ Datetime.instant_utc d < now.
Proof.
  unfold is_overdue. simpl.
  rewrite !andb_true_iff, !bool_decide_eq_true.
  destruct (DBTask.due_date r) as [d |].
  - rewrite bool_decide_eq_true. split.
    + intros (((? & ?) & ?) & ?). eauto 10.
    + intros (? & ? & ? & d' & [= <-] & ?). done.
  - split; [by intros (_ & [=]) | by intros (_ & _ & _ & d & [=] & _)].
Qed.

Lemma list_overdue_unfold db u now limit :
  list_overdue db u now limit
  = if decide (limit < 0) then []
    else (take (Z.to_nat limit) (overdue_rows db u now)).*2.
Proof.
  unfold list_overdue, limit_offset, overdue_rows.
  destruct (decide (limit < 0)) as [Hneg | Hpos].
  - by rewrite decide_True by lia.
  - rewrite decide_False by lia. by rewrite drop_0.
Qed.

Lemma overdue_rows_elem db u now id r :
  (id, r) ∈ overdue_rows db u now <-> db !! id = Some r /\ is_overdue u now (id, r) = true.
Proof.
  unfold overdue_rows. rewrite order_rows_perm, list_elem_of_filter, elem_of_map_to_list.
  tauto.
Qed.

(** X10: every task [list_overdue] returns is a stored task of the caller,
    neither concluded nor cancelled, whose due date lies before [now] and
    is classified [overdue] by [_get_alert_level] at [now]; the tasks come
    in the order of their due dates, earliest first, and are at most
    [limit]; with a negative [limit] the answer is the empty list. *)
Theorem list_overdue_sound db u now limit :
  Forall (fun r => exists id d,
              db !! id = Some r /\ DBTask.user_id r = u
              /\ DBTask.status r ≠ CONCLUIDA /\ DBTask.status r ≠ CANCELADA
              /\ DBTask.due_date r = Some d
              /\ Datetime.instant_utc d < now
              /\ Alert._get_alert_level now d = Ok "overdue")
    (list_overdue db u now limit)
  /\ StronglySorted due_le (list_overdue db u now limit)
  /\ Z.of_nat (length (list_overdue db u now limit)) <= Z.max 0 limit
  /\ (limit < 0 -> list_overdue db u now limit = []).
Proof.
  rewrite list_overdue_unfold.
  destruct (decide (limit < 0)) as [Hneg | Hpos].
  { repeat split; [constructor | constructor | simpl; lia]. }
  repeat split.
  - apply Forall_forall. intros r Hr.
    apply list_elem_of_fmap in Hr as ([id r0] & -> & Hin).
    pose proof (elem_of_sublist _ _ _ Hin (sublist_take _ _)) as Hin'.
    apply overdue_rows_elem in Hin' as [Hr0 Hover].
    apply is_overdue_true in Hover as (Hu & Hs1 & Hs2 & d & Hd & Hlt).
    exists id, d. repeat split; try done. by apply overdue_iff_classified.
  - apply (StronglySorted_fmap snd due_date_le); [by intros [] [] |].
    apply (StronglySorted_app_1_l _ _ (drop (Z.to_nat limit) (overdue_rows db u now))).
    rewrite take_drop. unfold overdue_rows, order_rows.
    apply StronglySorted_merge_sort; apply _.
  - rewrite length_fmap, length_take. lia.
  - lia.
Qed.

(** X11: [list_overdue] misses no task while there is room: a task of the
    caller, neither concluded nor cancelled, whose due date the classifier
    calls [overdue] at [now], is in the answer, unless the answer already
    holds [limit] tasks. *)
Theorem list_overdue_complete db u now limit id r d :
  0 <= limit ->
  db !! id = Some r -> DBTask.user_id r = u ->
  DBTask.status r ≠ CONCLUIDA -> DBTask.status r ≠ CANCELADA ->
  DBTask.due_date r = Some d ->
  Alert._get_alert_level now d = Ok "overdue" ->
  r ∈ list_overdue db u now limit
  \/ Z.of_nat (length (list_overdue db u now limit)) = limit.
Proof.
  intros Hlimit Hr Hu Hs1 Hs2 Hd Hlevel.
  rewrite list_overdue_unfold, decide_False by lia.
  assert (Hin : (id, r) ∈ overdue_rows db u now).
  { apply overdue_rows_elem. split; [done |]. apply is_overdue_true.
    repeat split; try done. exists d. split; [done |].
    by apply overdue_iff_classified. }
  rewrite <- (take_drop (Z.to_nat limit) (overdue_rows db u now)) in Hin.
  apply elem_of_app in Hin as [Hin | Hin].
  - left. by apply (list_elem_of_fmap_2 snd _ (id, r)).
  - right. rewrite length_fmap, length_take.
    destruct (decide (Z.to_nat limit < length (overdue_rows db u now))%nat); [lia |].
    rewrite drop_ge in Hin by lia. by apply elem_of_nil in Hin.
Qed.

Lemma list_overdue_complete_witness :
  exists r,
    Sample.db_alice_bob !! "t1" = Some r
    /\ (r ∈ list_overdue Sample.db_alice_bob "alice" (Sample.noon 12) 5
        \/ Z.of_nat (length (list_overdue Sample.db_alice_bob "alice" (Sample.noon 12) 5))
           = 5).
Proof.
  destruct (Sample.db_alice_bob !! "t1") as [r |] eqn:Hr;
    [| vm_compute in Hr; discriminate].
  exists r. split; [reflexivity |].
  pose proof Hr as Hrow. vm_compute in Hrow. injection Hrow as Hrow.
  apply (list_overdue_complete Sample.db_alice_bob "alice" (Sample.noon 12) 5 "t1" r
           Sample.due_same_day); [lia | exact Hr | ..]; subst r;
    first [reflexivity | discriminate].
Defined.

(** *** Productivity statistics *)

Lemma sum_scores_perm (l1 l2 : list (string * DBTask.t)) :
  l1 ≡ₚ l2 ->
  foldr Z.add 0 ((fun row => DBTask.score row.2) <$> l1)
  = foldr Z.add 0 ((fun row => DBTask.score row.2) <$> l2).
Proof. induction 1; csimpl; lia. Qed.

Lemma score_sum_insert P `{!forall row, Decision (P row)} (db : store) id r' :
  score_sum P (<[id := r']> db)
  = (if decide (P (id, r')) then DBTask.score r' else 0)
    + score_sum P (base.delete id db).
Proof.
  unfold score_sum.
  rewrite (sum_scores_perm _ _ (filter_Permutation P _ _ (rows_insert db id r'))).
  rewrite filter_cons. case_decide; csimpl; lia.
Qed.

Lemma score_sum_lookup P `{!forall row, Decision (P row)} (db : store) id r :
  db !! id = Some r ->
  score_sum P db
  = (if decide (P (id, r)) then DBTask.score r else 0) + score_sum P (base.delete id db).
Proof.
  intros Hr. unfold score_sum.
  rewrite (sum_scores_perm _ _ (filter_Permutation P _ _ (rows_lookup db id r Hr))).
  rewrite filter_cons. case_decide; csimpl; lia.
Qed.

Lemma stats_tally db u :
  tasks_completed (get_productivity_stats db u) = tally (concluded_of u) db
  /\ total_score (get_productivity_stats db u) = score_sum (concluded_of u) db.
Proof. split; reflexivity. Qed.

(** X12: completing a task of the caller that is not yet concluded raises
    the caller's [tasks_completed] by one and [total_score] by the score of
    the task; completing a task that is already concluded changes neither;
    the statistics of every other user stay as they are. *)
Theorem complete_task_feeds_stats db id u cb now r :
  get db id u = Some r ->
  tasks_completed (get_productivity_stats (TaskService.complete_task db id u cb now).2 u)
  = tasks_completed (get_productivity_stats db u)
    + (if decide (DBTask.status r = CONCLUIDA) then 0 else 1)
  /\ total_score (get_productivity_stats (TaskService.complete_task db id u cb now).2 u)
     = total_score (get_productivity_stats db u)
       + (if decide (DBTask.status r = CONCLUIDA) then 0 else DBTask.score r)
  /\ (forall v, v ≠ u ->
        tasks_completed
          (get_productivity_stats (TaskService.complete_task db id u cb now).2 v)
        = tasks_completed (get_productivity_stats db v)
        /\ total_score
             (get_productivity_stats (TaskService.complete_task db id u cb now).2 v)
           = total_score (get_productivity_stats db v)).
Proof.
  intros Hg.
  destruct (complete_task_cases db id u cb now) as [[Hnone _] | (r0 & Hg0 & ->)];
    [congruence |].
  assert (r0 = r) as -> by congruence. cbn [snd].
  apply get_Some in Hg as [Hr Hu].
  assert (Hrow : DBTask.user_id (completed_row r u cb now) = u
                 /\ DBTask.status (completed_row r u cb now) = CONCLUIDA
                 /\ DBTask.score (completed_row r u cb now) = DBTask.score r)
    by (by destruct r).
  destruct Hrow as (Hu' & Hs' & Hscore').
  split; [| split].
  - rewrite !(proj1 (stats_tally _ _)).
    rewrite tally_insert, (tally_lookup _ db id r Hr).
    unfold one_if, concluded_of. simpl.
    rewrite decide_True by done.
    destruct (decide (DBTask.status r = CONCLUIDA)).
    + rewrite decide_True by done. lia.
    + rewrite decide_False by tauto. lia.
  - rewrite !(proj2 (stats_tally _ _)).
    rewrite score_sum_insert, (score_sum_lookup _ db id r Hr).
    unfold concluded_of. simpl.
    rewrite decide_True by done. rewrite Hscore'.
    destruct (decide (DBTask.status r = CONCLUIDA)).
    + rewrite decide_True by done. lia.
    + rewrite decide_False by tauto. lia.
  - intros v Hv. rewrite !(proj1 (stats_tally _ _)), !(proj2 (stats_tally _ _)).
    rewrite tally_insert, (tally_lookup _ db id r Hr).
    rewrite score_sum_insert, (score_sum_lookup _ db id r Hr).
    unfold one_if, concluded_of. simpl.
    rewrite !(decide_False (P := DBTask.user_id _ = v /\ _)) by (intros [? _]; congruence).
    done.
Qed.

Lemma complete_task_feeds_stats_witness :
  tasks_completed
    (get_productivity_stats
       (TaskService.complete_task Sample.db_alice "t1" "alice" None (Sample.noon 11)).2
       "alice")
  = tasks_completed (get_productivity_stats Sample.db_alice "alice") + 1.
Proof.
  edestruct (complete_task_feeds_stats Sample.db_alice "t1" "alice" None (Sample.noon 11))
    as (Hcount & _ & _).
  { vm_compute. reflexivity. }
  exact Hcount.
Defined.

End QueryProps.

(** ** Scores and alert levels in order *)

Module OrderProps.
Import Scale.

Lemma urgency_monotone a b :
  a <= b ->
  urgency (Alert.level_of_diff_days a) <= urgency (Alert.level_of_diff_days b).
Proof.
  intros Hab. unfold Alert.level_of_diff_days.
  repeat case_decide; try lia; by vm_compute.
Qed.

(** X13: the classifier is monotone: at one [now], a later due date never
    gets a more urgent level than an earlier one; for one due date, a later
    [now] never gets a less urgent level; and two due dates that denote the
    same instant, whatever their time zones, get the same level. *)
Theorem alert_level_monotone now now' d d' :
  (Datetime.instant_utc d <= Datetime.instant_utc d' ->
   exists l l', Alert._get_alert_level now d = Ok l
           /\ Alert._get_alert_level now d' = Ok l'
           /\ urgency l <= urgency l')
  /\ (now <= now' ->
      exists l l', Alert._get_alert_level now d = Ok l
              /\ Alert._get_alert_level now' d = Ok l'
              /\ urgency l' <= urgency l)
  /\ (Datetime.instant_utc d = Datetime.instant_utc d' ->
      Alert._get_alert_level now d = Alert._get_alert_level now d').
Proof.
  rewrite !AlertFacts.get_alert_level_days. unfold Alert.diff_days.
  split; [| split].
  - intros Hle. do 2 eexists. split; [reflexivity |]. split; [reflexivity |].
    apply urgency_monotone, Z.div_le_mono; [reflexivity | lia].
  - intros Hle. do 2 eexists. split; [reflexivity |]. split; [reflexivity |].
    apply urgency_monotone, Z.div_le_mono; [reflexivity | lia].
  - by intros ->.
Qed.

Lemma alert_level_monotone_witness :
  exists l l',
    Alert._get_alert_level (Sample.noon 10) Sample.due_same_day = Ok l
    /\ Alert._get_alert_level (Sample.noon 12) Sample.due_same_day = Ok l'
    /\ urgency l' <= urgency l.
Proof.
  apply (alert_level_monotone (Sample.noon 10) (Sample.noon 12)
           Sample.due_same_day Sample.due_same_day).
  vm_compute. discriminate.
Defined.

(** X14: for one category a higher priority never gives a lower score, and
    for one priority a category with more base points never gives a lower
    score; the truncation of the product does not disturb the order. *)
Theorem calculate_score_monotone t t' p p' :
  priority_rank p <= priority_rank p' ->
  Score.base_points t <= Score.base_points t' ->
  exists n n',
    Score._calculate_score (TaskType_value t) (TaskPriority_value p) = Ok n
    /\ Score._calculate_score (TaskType_value t') (TaskPriority_value p') = Ok n'
    /\ n <= n'.
Proof.
  intros Hp Ht. rewrite !StoreFacts.calculate_score_known.
  do 2 eexists. split; [reflexivity |]. split; [reflexivity |].
  destruct p, p'; try (exfalso; vm_compute in Hp; by apply Hp);
    destruct t, t'; try (exfalso; vm_compute in Ht; by apply Ht);
    by vm_compute.
Qed.

Lemma calculate_score_monotone_witness :
  exists n n',
    Score._calculate_score (TaskType_value OUTRO) (TaskPriority_value ALTA) = Ok n
    /\ Score._calculate_score (TaskType_value OUTRO) (TaskPriority_value URGENTE) = Ok n'
    /\ n <= n'.
Proof.
  apply (calculate_score_monotone OUTRO OUTRO ALTA URGENTE); vm_compute; discriminate.
Defined.

End OrderProps.

(** ** Documents and telephones *)

Module ValidatorProps.
Import Stdlib.Strings.Ascii Validators ValidatorAux.

Lemma only_digits_app a b : only_digits (a ++ b) = only_digits a ++ only_digits b.
Proof. apply filter_app. Qed.

Lemma only_digits_are_digits s : Forall (fun c => is_digit c = true) (only_digits s).
Proof.
  apply Forall_forall. intros c Hc. by apply list_elem_of_filter in Hc as [Hc _].
Qed.

Lemma only_digits_id d : Forall (fun c => is_digit c = true) d -> only_digits d = d.
Proof.
  induction 1 as [| c d Hc _ IH]; [done |].
  unfold only_digits. rewrite filter_cons_True by done. f_equal. exact IH.
Qed.

Lemma only_digits_slice s a b : only_digits (slice (only_digits s) a b) = slice (only_digits s) a b.
Proof. apply only_digits_id, Forall_take, Forall_drop, only_digits_are_digits. Qed.

Lemma only_digits_drop s n : only_digits (drop n (only_digits s)) = drop n (only_digits s).
Proof. apply only_digits_id, Forall_drop, only_digits_are_digits. Qed.

(** A slice followed by the rest of the string. *)
Lemma slice_drop (d : list ascii) a b : (a <= b)%nat -> slice d a b ++ drop b d = drop a d.
Proof.
  intros Hab. unfold slice.
  replace (drop b d) with (drop (b - a) (drop a d)).
  - apply take_drop.
  - rewrite drop_drop. f_equal. lia.
Qed.

Ltac strip_separators :=
  repeat (rewrite only_digits_app || rewrite only_digits_slice || rewrite only_digits_drop);
  repeat match goal with
    | |- context [only_digits [?c]] => change (only_digits [c]) with (@nil ascii)
    | |- context [only_digits [?c; ?c']] => change (only_digits [c; c']) with (@nil ascii)
    end;
  simpl app.

Lemma format_cpf_digits s : only_digits (format_cpf s) = only_digits s.
Proof.
  unfold format_cpf. case_decide; [done |]. strip_separators.
  rewrite !slice_drop by lia. apply drop_0.
Qed.

Lemma format_cnpj_digits s : only_digits (format_cnpj s) = only_digits s.
Proof.
  unfold format_cnpj. case_decide; [done |]. strip_separators.
  rewrite !slice_drop by lia. apply drop_0.
Qed.

Lemma format_phone_digits s : only_digits (format_phone s) = only_digits s.
Proof.
  unfold format_phone. repeat case_decide; [| | done]; strip_separators;
    rewrite !slice_drop by lia; apply drop_0.
Qed.

Lemma format_cpf_cnpj_digits s : only_digits (format_cpf_cnpj s) = only_digits s.
Proof.
  unfold format_cpf_cnpj. repeat case_decide;
    [apply format_cpf_digits | apply format_cnpj_digits | done].
Qed.

(** X15: formatting changes no digit, so a formatted value is valid
    exactly when the value it was made from is: this holds of [format_cpf]
    with [validate_cpf], [format_cnpj] with [validate_cnpj],
    [format_cpf_cnpj] with [validate_cpf_cnpj] and [format_phone] with
    [validate_phone]. *)
Theorem formatting_keeps_validity s :
  (only_digits (format_cpf s) = only_digits s
   /\ validate_cpf (format_cpf s) = validate_cpf s)
  /\ (only_digits (format_cnpj s) = only_digits s
      /\ validate_cnpj (format_cnpj s) = validate_cnpj s)
  /\ (only_digits (format_cpf_cnpj s) = only_digits s
      /\ validate_cpf_cnpj (format_cpf_cnpj s) = validate_cpf_cnpj s)
  /\ (only_digits (format_phone s) = only_digits s
      /\ validate_phone (format_phone s) = validate_phone s).
Proof.
  repeat split.
  - apply format_cpf_digits.
  - unfold validate_cpf. by rewrite format_cpf_digits.
  - apply format_cnpj_digits.
  - unfold validate_cnpj. by rewrite format_cnpj_digits.
  - apply format_cpf_cnpj_digits.
  - unfold validate_cpf_cnpj, validate_cpf, validate_cnpj.
    by rewrite format_cpf_cnpj_digits.
  - apply format_phone_digits.
  - unfold validate_phone. by rewrite format_phone_digits.
Qed.

Lemma format_cpf_idem s : format_cpf (format_cpf s) = format_cpf s.
Proof.
  unfold format_cpf at 1. rewrite format_cpf_digits.
  unfold format_cpf. by case_decide.
Qed.

Lemma format_cnpj_idem s : format_cnpj (format_cnpj s) = format_cnpj s.
Proof.
  unfold format_cnpj at 1. rewrite format_cnpj_digits.
  unfold format_cnpj. by case_decide.
Qed.

Lemma format_cpf_cnpj_idem s : format_cpf_cnpj (format_cpf_cnpj s) = format_cpf_cnpj s.
Proof.
  unfold format_cpf_cnpj at 1. rewrite format_cpf_cnpj_digits.
  unfold format_cpf_cnpj.
  repeat case_decide; [apply format_cpf_idem | apply format_cnpj_idem | done].
Qed.

Lemma format_phone_idem s : format_phone (format_phone s) = format_phone s.
Proof.
  unfold format_phone at 1. rewrite format_phone_digits.
  unfold format_phone. by repeat case_decide.
Qed.

(** X16: the formatters are idempotent: formatting a formatted CPF, CNPJ
    or telephone changes nothing. *)
Theorem formatting_idempotent s :
  format_cpf (format_cpf s) = format_cpf s
  /\ format_cnpj (format_cnpj s) = format_cnpj s
  /\ format_cpf_cnpj (format_cpf_cnpj s) = format_cpf_cnpj s
  /\ format_phone (format_phone s) = format_phone s.
Proof.
  split; [apply format_cpf_idem |]. split; [apply format_cnpj_idem |].
  split; [apply format_cpf_cnpj_idem | apply format_phone_idem].
Qed.

Lemma slice_length (d : list ascii) a b :
  (b <= length d)%nat -> length (slice d a b) = (b - a)%nat.
Proof. intros Hb. unfold slice. rewrite length_take, length_drop. lia. Qed.

Lemma format_cpf_length s :
  length (only_digits s) = 11%nat -> length (format_cpf s) = 14%nat.
Proof.
  intros Hlen. unfold format_cpf. rewrite decide_False by lia.
  rewrite !length_app, !slice_length, length_drop by lia. simpl. lia.
Qed.

Lemma format_cnpj_length s :
  length (only_digits s) = 14%nat -> length (format_cnpj s) = 18%nat.
Proof.
  intros Hlen. unfold format_cnpj. rewrite decide_False by lia.
  rewrite !length_app, !slice_length, length_drop by lia. simpl. lia.
Qed.

Lemma format_phone_length s :
  (length (only_digits s) = 10 \/ length (only_digits s) = 11)%nat ->
  length (format_phone s) = (length (only_digits s) + 4)%nat.
Proof.
  intros Hlen. unfold format_phone.
  repeat case_decide; [| | lia];
    rewrite !length_app, !slice_length, length_drop by lia; simpl; lia.
Qed.

Lemma validate_cpf_length s : validate_cpf s = true -> length (only_digits s) = 11%nat.
Proof.
  unfold validate_cpf. case_decide as Hlen; [discriminate |]. intros _.
  by destruct (decide (length (only_digits s) = 11%nat)).
Qed.

Lemma validate_cnpj_length s : validate_cnpj s = true -> length (only_digits s) = 14%nat.
Proof.
  unfold validate_cnpj. case_decide as Hlen; [discriminate |]. intros _.
  by destruct (decide (length (only_digits s) = 14%nat)).
Qed.

Lemma validate_phone_length s :
  validate_phone s = true ->
  (length (only_digits s) = 10 \/ length (only_digits s) = 11)%nat.
Proof.
  unfold validate_phone. case_decide as Hlen; [discriminate |]. intros _.
  destruct (decide (length (only_digits s) = 10%nat)); [by left |].
  destruct (decide (length (only_digits s) = 11%nat)); [by right |]. tauto.
Qed.

(** X17: a CPF or CNPJ the client schema accepts is stored in one shape:
    the stored value has the digits of the input, is 14 characters long
    for a CPF and 18 for a CNPJ (the width of the column), is accepted
    unchanged when validated again, and is the same for two inputs with
    the same digits. *)
Theorem cpf_cnpj_stored_in_canonical_form v w :
  validate_and_format_cpf_cnpj v = Ok w ->
  only_digits w = only_digits v
  /\ (length w = 14%nat \/ length w = 18%nat)
  /\ validate_and_format_cpf_cnpj w = Ok w
  /\ (forall v' w', validate_and_format_cpf_cnpj v' = Ok w' ->
                   only_digits v' = only_digits v -> w' = w).
Proof.
  unfold validate_and_format_cpf_cnpj at 1.
  case_decide as Hempty; [discriminate |].
  destruct (validate_cpf_cnpj v) eqn:Hvalid; simpl; [| discriminate].
  intros [= <-].
  assert (Hlen : length (format_cpf_cnpj v) = 14%nat \/ length (format_cpf_cnpj v) = 18%nat).
  { unfold validate_cpf_cnpj in Hvalid. unfold format_cpf_cnpj.
    repeat case_decide; [| | discriminate].
    - left. by apply format_cpf_length.
    - right. by apply format_cnpj_length. }
  split; [apply format_cpf_cnpj_digits |]. split; [exact Hlen |]. split.
  - unfold validate_and_format_cpf_cnpj.
    rewrite decide_False by (intros Hnil; rewrite Hnil in Hlen; simpl in Hlen; lia).
    rewrite format_cpf_cnpj_idem.
    unfold validate_cpf_cnpj, validate_cpf, validate_cnpj in *.
    rewrite format_cpf_cnpj_digits. by rewrite Hvalid.
  - intros v' w' Hw' Hdigits. unfold validate_and_format_cpf_cnpj in Hw'.
    case_decide; [discriminate |].
    destruct (validate_cpf_cnpj v') eqn:Hvalid'; simpl in Hw'; [| discriminate].
    injection Hw' as <-.
    unfold validate_cpf_cnpj in Hvalid, Hvalid'.
    unfold format_cpf_cnpj, format_cpf, format_cnpj. rewrite Hdigits.
    repeat case_decide; try done; lia.
Qed.

Lemma cpf_cnpj_stored_in_canonical_form_witness :
  validate_and_format_cpf_cnpj (String.list_ascii_of_string "52998224725")
  = Ok (String.list_ascii_of_string "529.982.247-25")
  /\ validate_and_format_cpf_cnpj (String.list_ascii_of_string "529.982.247-25")
     = Ok (String.list_ascii_of_string "529.982.247-25").
Proof.
  assert (H : validate_and_format_cpf_cnpj (String.list_ascii_of_string "52998224725")
              = Ok (String.list_ascii_of_string "529.982.247-25")) by (vm_compute; reflexivity).
  split; [exact H |].
  by destruct (cpf_cnpj_stored_in_canonical_form _ _ H) as (_ & _ & Hagain & _).
Defined.

(** X18: a telephone the client schemas accept is stored in one shape: the
    stored value has the digits of the input, is 14 or 15 characters long
    (within the 16 of the column), is accepted unchanged by each of the
    telephone validators when validated again, and is the same for two
    inputs with the same digits; an empty secondary telephone is stored as
    [None]. *)
Theorem phone_stored_in_canonical_form v w :
  validate_and_format_phone v = Ok w ->
  only_digits w = only_digits v
  /\ (length w = 14%nat \/ length w = 15%nat)
  /\ validate_and_format_phone w = Ok w
  /\ validate_secondary_phone (Some w) = Ok (Some w)
  /\ update_validate_and_format_phone (Some w) = Ok (Some w)
  /\ validate_secondary_phone (Some []) = Ok None
  /\ (forall v' w', validate_and_format_phone v' = Ok w' ->
                   only_digits v' = only_digits v -> w' = w).
Proof.
  unfold validate_and_format_phone at 1.
  case_decide as Hempty; [discriminate |].
  destruct (validate_phone v) eqn:Hvalid; simpl; [| discriminate].
  intros [= <-].
  pose proof (validate_phone_length v Hvalid) as Hd.
  pose proof (format_phone_length v Hd) as Hlen.
  assert (Hne : format_phone v ≠ []).
  { intros Hnil. rewrite Hnil in Hlen. simpl in Hlen. lia. }
  assert (Hvalid' : validate_phone (format_phone v) = true).
  { unfold validate_phone in *. by rewrite format_phone_digits. }
  split; [apply format_phone_digits |]. split; [lia |].
  unfold validate_and_format_phone, validate_secondary_phone,
    update_validate_and_format_phone.
  rewrite !decide_False by done. rewrite Hvalid', format_phone_idem. simpl.
  repeat split.
  intros v' w' Hw' Hdigits.
  case_decide; [discriminate |].
  destruct (validate_phone v'); simpl in Hw'; [| discriminate].
  injection Hw' as <-. unfold format_phone. rewrite Hdigits.
  repeat case_decide; try done; lia.
Qed.

Lemma phone_stored_in_canonical_form_witness :
  validate_and_format_phone (String.list_ascii_of_string "11 98765 4321")
  = Ok (String.list_ascii_of_string "(11) 98765-4321")
  /\ validate_and_format_phone (String.list_ascii_of_string "(11) 98765-4321")
     = Ok (String.list_ascii_of_string "(11) 98765-4321").
Proof.
  assert (H : validate_and_format_phone (String.list_ascii_of_string "11 98765 4321")
              = Ok (String.list_ascii_of_string "(11) 98765-4321")) by (vm_compute; reflexivity).
  split; [exact H |].
  by destruct (phone_stored_in_canonical_form _ _ H) as (_ & _ & Hagain & _).
Defined.

(** *** Check digits *)

Lemma int_of_digit_inj a b : int_of_digit a = int_of_digit b -> a = b.
Proof.
  unfold int_of_digit. intros H.
  assert (Hn : nat_of_ascii a = nat_of_ascii b) by lia.
  by rewrite <- (ascii_nat_embedding a), <- (ascii_nat_embedding b), Hn.
Qed.

Lemma sum_range_ext n f g :
  (forall i, (i < n)%nat -> f i = g i) -> sum_range n f = sum_range n g.
Proof.
  intros Hfg. unfold sum_range. f_equal. apply list_fmap_ext.
  intros k i Hi. apply Hfg. apply lookup_seq in Hi. lia.
Qed.

Lemma char_at_take (d : list ascii) n i :
  (i < n)%nat -> char_at (take n d) i = char_at d i.
Proof.
  intros Hi. unfold char_at. rewrite !nth_lookup. by rewrite lookup_take_lt.
Qed.

Lemma take_snoc (d : list ascii) n :
  (n < length d)%nat -> take (S n) d = take n d ++ [char_at d n].
Proof.
  intros Hn. destruct (lookup_lt_is_Some_2 d n Hn) as [c Hc].
  rewrite (take_S_r d n c Hc). unfold char_at. by rewrite nth_lookup, Hc.
Qed.

(** The weighted sums of the checks see only the digits before the check
    digit. *)
Lemma weighted_sum_take (d d' : list ascii) n (w : nat -> Z) :
  take n d = take n d' ->
  sum_range n (fun i => int_of_digit (char_at d i) * w i)
  = sum_range n (fun i => int_of_digit (char_at d' i) * w i).
Proof.
  intros Htake. apply sum_range_ext. intros i Hi.
  by rewrite <- (char_at_take d n i Hi), <- (char_at_take d' n i Hi), Htake.
Qed.

Lemma last_digit_agrees (d d' : list ascii) n :
  (n < length d)%nat -> (n < length d')%nat ->
  take n d = take n d' ->
  int_of_digit (char_at d n) = int_of_digit (char_at d' n) ->
  take (S n) d = take (S n) d'.
Proof.
  intros Hn Hn' Htake Hdigit.
  rewrite (take_snoc d n Hn), (take_snoc d' n Hn'), Htake.
  by rewrite (int_of_digit_inj _ _ Hdigit).
Qed.

Lemma cpf_check_take n d d' : take n d = take n d' -> cpf_check n d = cpf_check n d'.
Proof.
  intros Htake. unfold cpf_check.
  by rewrite (weighted_sum_take d d' n (fun i => Z.of_nat n + 1 - Z.of_nat i) Htake).
Qed.

Lemma validate_cpf_checks s :
  validate_cpf s = true ->
  int_of_digit (char_at (only_digits s) 9) = cpf_check 9 (only_digits s)
  /\ int_of_digit (char_at (only_digits s) 10) = cpf_check 10 (only_digits s).
Proof.
  unfold validate_cpf, cpf_check.
  change (Z.of_nat 9 + 1) with 10. change (Z.of_nat 10 + 1) with 11.
  repeat case_decide; try discriminate; intros _; split; congruence.
Qed.

(** X19: the first nine digits of a valid CPF determine its two check
    digits: two valid CPFs that agree on their first nine digits have the
    same eleven digits. *)
Theorem cpf_check_digits_determined s s' :
  validate_cpf s = true -> validate_cpf s' = true ->
  take 9 (only_digits s) = take 9 (only_digits s') ->
  length (only_digits s) = 11%nat /\ only_digits s = only_digits s'.
Proof.
  intros Hs Hs' Hnine.
  pose proof (validate_cpf_length s Hs) as Hlen.
  pose proof (validate_cpf_length s' Hs') as Hlen'.
  destruct (validate_cpf_checks s Hs) as [H9 H10].
  destruct (validate_cpf_checks s' Hs') as [H9' H10'].
  split; [done |].
  assert (Hten : take 10 (only_digits s) = take 10 (only_digits s')).
  { apply last_digit_agrees; [lia | lia | done |].
    by rewrite H9, H9', (cpf_check_take 9 _ _ Hnine). }
  assert (Heleven : take 11 (only_digits s) = take 11 (only_digits s')).
  { apply last_digit_agrees; [lia | lia | done |].
    by rewrite H10, H10', (cpf_check_take 10 _ _ Hten). }
  by rewrite !take_ge in Heleven by lia.
Qed.

Lemma cpf_check_digits_determined_witness :
  only_digits (String.list_ascii_of_string "529.982.247-25")
  = only_digits (String.list_ascii_of_string "52998224725").
Proof.
  apply (cpf_check_digits_determined
           (String.list_ascii_of_string "529.982.247-25")
           (String.list_ascii_of_string "52998224725")); reflexivity.
Defined.

Lemma cnpj_check_take n mult d d' :
  take n d = take n d' -> cnpj_check n mult d = cnpj_check n mult d'.
Proof.
  intros Htake. unfold cnpj_check.
  by rewrite (weighted_sum_take d d' n (fun i => nth i mult 0) Htake).
Qed.

Lemma validate_cnpj_checks s :
  validate_cnpj s = true ->
  int_of_digit (char_at (only_digits s) 12) = cnpj_check 12 multiplicadores1 (only_digits s)
  /\ int_of_digit (char_at (only_digits s) 13)
     = cnpj_check 13 multiplicadores2 (only_digits s).
Proof.
  unfold validate_cnpj, cnpj_check.
  repeat case_decide; try discriminate; intros _; split; congruence.
Qed.

(** X20: the first twelve digits of a valid CNPJ determine its two check
    digits: two valid CNPJs that agree on their first twelve digits have
    the same fourteen digits. *)
Theorem cnpj_check_digits_determined s s' :
  validate_cnpj s = true -> validate_cnpj s' = true ->
  take 12 (only_digits s) = take 12 (only_digits s') ->
  length (only_digits s) = 14%nat /\ only_digits s = only_digits s'.
Proof.
  intros Hs Hs' Htwelve.
  pose proof (validate_cnpj_length s Hs) as Hlen.
  pose proof (validate_cnpj_length s' Hs') as Hlen'.
  destruct (validate_cnpj_checks s Hs) as [H12 H13].
  destruct (validate_cnpj_checks s' Hs') as [H12' H13'].
  split; [done |].
  assert (Hthirteen : take 13 (only_digits s) = take 13 (only_digits s')).
  { apply last_digit_agrees; [lia | lia | done |].
    by rewrite H12, H12', (cnpj_check_take 12 _ _ _ Htwelve). }
  assert (Hfourteen : take 14 (only_digits s) = take 14 (only_digits s')).
  { apply last_digit_agrees; [lia | lia | done |].
    by rewrite H13, H13', (cnpj_check_take 13 _ _ _ Hthirteen). }
  by rewrite !take_ge in Hfourteen by lia.
Qed.

Lemma cnpj_check_digits_determined_witness :
  only_digits (String.list_ascii_of_string "11.222.333/0001-81")
  = only_digits (String.list_ascii_of_string "11222333000181").
Proof.
  apply (cnpj_check_digits_determined
           (String.list_ascii_of_string "11.222.333/0001-81")
           (String.list_ascii_of_string "11222333000181")); reflexivity.
Defined.

(** *** Repeated digits *)

Lemma validate_cpf_not_uniform s :
  validate_cpf s = true ->
  only_digits s ≠ replicate 11 (char_at (only_digits s) 0).
Proof. unfold validate_cpf. by repeat case_decide. Qed.

Lemma digit_value c : is_digit c = true -> 0 <= int_of_digit c <= 9.
Proof.
  unfold is_digit, int_of_digit. intros H. apply bool_decide_eq_true in H. lia.
Qed.

Lemma cpf_check_uniform c :
  is_digit c = true ->
  cpf_check 9 (replicate 11 c) = int_of_digit c
  /\ cpf_check 10 (replicate 11 c) = int_of_digit c.
Proof.
  intros Hc. pose proof (digit_value c Hc) as Hn.
  unfold cpf_check, sum_range, char_at. simpl.
  generalize dependent (int_of_digit c). intros n Hn.
  replace n with (Z.of_nat (Z.to_nat n)) by lia.
  assert (Hm : (Z.to_nat n < 10)%nat) by lia.
  generalize dependent (Z.to_nat n). intros m Hm.
  do 10 (destruct m as [| m]; [by vm_compute |]). lia.
Qed.

(** X22: no CPF whose first nine digits are all the same is valid,
    whatever its last two digits: the check digits the algorithm asks for
    repeat that digit once more, and a CPF of eleven equal digits is
    refused. *)
Theorem cpf_nine_equal_digits_invalid s c :
  take 9 (only_digits s) = replicate 9 c -> validate_cpf s = false.
Proof.
  intros Hnine. destruct (validate_cpf s) eqn:Hvalid; [exfalso | done].
  pose proof (validate_cpf_length s Hvalid) as Hlen.
  destruct (validate_cpf_checks s Hvalid) as [H9 H10].
  assert (Hc : is_digit c = true).
  { assert (Hin : c ∈ take 9 (only_digits s)) by (rewrite Hnine; simpl; set_solver).
    pose proof (elem_of_sublist _ _ _ Hin (sublist_take _ _)) as Hin'.
    by apply list_elem_of_filter in Hin' as [? _]. }
  destruct (cpf_check_uniform c Hc) as [Hu9 Hu10].
  assert (Hten : take 10 (only_digits s) = take 10 (replicate 11 c)).
  { apply last_digit_agrees; [lia | simpl; lia | done |].
    by rewrite H9, (cpf_check_take 9 _ (replicate 11 c) Hnine), Hu9. }
  assert (Heleven : take 11 (only_digits s) = take 11 (replicate 11 c)).
  { apply last_digit_agrees; [lia | simpl; lia | done |].
    by rewrite H10, (cpf_check_take 10 _ (replicate 11 c) Hten), Hu10. }
  rewrite take_ge in Heleven by lia. simpl in Heleven.
  apply (validate_cpf_not_uniform s Hvalid). by rewrite Heleven.
Qed.

Lemma cpf_nine_equal_digits_invalid_witness :
  validate_cpf (String.list_ascii_of_string "222.222.222-22") = false
  /\ validate_cpf (String.list_ascii_of_string "222.222.222-05") = false.
Proof.
  split.
  - apply (cpf_nine_equal_digits_invalid _ "2"%char). reflexivity.
  - apply (cpf_nine_equal_digits_invalid _ "2"%char). reflexivity.
Defined.

End ValidatorProps.
